(** * Approval Rationale Tracker: the domain core, embedded and verified

    The development follows the TypeScript sources:

    - [services/stalenessCalculator.ts]  days since review, staleness tiers
    - [services/approvalLogicAge.ts]     whole months since approval
    - [services/confirmationActions.ts]  pending rationale -> rationale
    - [services/reviewAction.ts]         mark a rationale as reviewed
    - [services/reviewSummary.ts]        the annual review summary
    - [services/rationaleExtractor.ts]   text -> pending rationales
    - [services/demoData.ts]             the demo loan and its rationales
    - [context/LoanCockpitContext.tsx]   the reducer and the persistence codec

    Conventions.

    - A JavaScript number is an integer or [NaN]: every number the core
      computes is an integer (time values, day and month counts, indices)
      or the [NaN] that an Invalid Date produces.  Calendar fields, day
      counts and indices stay far below 2^53, where arithmetic on IEEE
      doubles is exact.  The difference of two time values can exceed
      2^53 (dates more than 285,000 years apart); [getDaysSinceReview]
      therefore subtracts and divides as doubles do, rounding to the
      nearest double, ties to even.
    - A [Date] is its time value.
    - A string is a sequence of code units, and a code unit is below 256
      (U+0000 to U+00FF); on these, lengths, indices, case and white space
      are those of JavaScript.  Texts with higher code units are not
      represented; the bullet of the summary stands as its UTF-8 bytes.
    - [new Date()] is a clock argument of the function that evaluates it;
      the time zone, the locale's date format and the ids that
      [generateId()] returns belong to the host. *)

From Stdlib Require Import ZArith List String Ascii Bool Lia DecimalString.
From Stdlib Require Import Permutation Sorted.
Import ListNotations.
Local Open Scope string_scope.
Local Open Scope Z_scope.

(** ** JavaScript numbers and dates *)

Module JS.

Inductive number : Type :=
| Num (z : Z)
| NaN.

(** Sums, differences and products of calendar fields, day counts and
    indices, where doubles are exact. *)
Definition num_add (a b : number) : number :=
  match a, b with Num x, Num y => Num (x + y) | _, _ => NaN end.

Definition num_sub (a b : number) : number :=
  match a, b with Num x, Num y => Num (x - y) | _, _ => NaN end.

Definition num_mul (a b : number) : number :=
  match a, b with Num x, Num y => Num (x * y) | _, _ => NaN end.

(** [a <= b] and [a < b]: a comparison with [NaN] is false. *)
Definition num_leb (a b : number) : bool :=
  match a, b with Num x, Num y => x <=? y | _, _ => false end.

Definition num_ltb (a b : number) : bool :=
  match a, b with Num x, Num y => x <? y | _, _ => false end.

(** [Math.max(a, b)]: [NaN] when either argument is. *)
Definition Math_max (a b : number) : number :=
  match a, b with Num x, Num y => Num (Z.max x y) | _, _ => NaN end.

(** *** Rounding to a double

    [roundHalfEven n d] is the integer nearest to the fraction [n / d],
    for [d > 0]; half way between two integers it is the even one. *)
Definition roundHalfEven (n d : Z) : Z :=
  let q := n / d in
  let r := n mod d in
  if 2 * r <? d then q
  else if d <? 2 * r then q + 1
  else if Z.even q then q else q + 1.

(** The double nearest to an integer: an integer below 2^53 in magnitude
    is a double; a larger one keeps its 53 leading bits, rounded. *)
Definition binary64 (z : Z) : Z :=
  let e := Z.log2 (Z.abs z) in
  if e <=? 52 then z else 2 ^ (e - 52) * roundHalfEven z (2 ^ (e - 52)).

(** [a - b] on two integers that are doubles: the difference, rounded.
    [num_sub] is this operation where the difference is below 2^53. *)
Definition num_sub_double (a b : number) : number :=
  match a, b with Num x, Num y => Num (binary64 (x - y)) | _, _ => NaN end.

(** The binary exponent of the fraction [n / d], for [n <> 0] and
    [d > 0]: the [e] with [2^e <= |n| / d < 2^(e+1)]. *)
Definition binaryExponent (n d : Z) : Z :=
  if d <=? Z.abs n then Z.log2 (Z.abs n / d)
  else - Z.log2_up ((d + Z.abs n - 1) / Z.abs n).

(** [Math.floor(a / d)] for a double [a] and a positive integer constant
    [d]: the quotient is rounded to 53 significant bits, then floored. *)
Definition floorOfQuotient (x d : Z) : Z :=
  if x =? 0 then 0
  else
    let e := binaryExponent x d in
    if e <=? 52 then roundHalfEven (x * 2 ^ (52 - e)) d / 2 ^ (52 - e)
    else 2 ^ (e - 52) * roundHalfEven x (d * 2 ^ (e - 52)).

Definition Math_floor_div (a : number) (d : Z) : number :=
  match a with Num x => Num (floorOfQuotient x d) | NaN => NaN end.

(** A Date object: [getTime()] is an integral number of milliseconds
    since the epoch, or [NaN] for an Invalid Date. *)
Record Date : Type := mkDate { getTime : number }.

Definition dateOfMs (t : Z) : Date := mkDate (Num t).
Definition InvalidDate : Date := mkDate NaN.

(** The largest time value a Date can hold. *)
Definition maxTimeValue : Z := 8640000000000000.

Definition isValidDate (d : Date) : bool :=
  match getTime d with
  | Num t => (- maxTimeValue <=? t) && (t <=? maxTimeValue)
  | NaN => false
  end.

(** [TimeClip], as the Date constructor applies it to a number. *)
Definition TimeClip (n : number) : number :=
  match n with
  | Num t => if (- maxTimeValue <=? t) && (t <=? maxTimeValue) then Num t else NaN
  | NaN => NaN
  end.

Definition newDate (n : number) : Date := mkDate (TimeClip n).

(** *** Calendar arithmetic on time values

    [Day(t)] and [TimeWithinDay(t)] split a time value; [civilFromDays]
    gives the proleptic Gregorian year, month (1..12) and day of month of a
    day number, counting days from 1 March of year 0 in eras of 400
    years; [daysFromCivil] is [MakeDay]. *)

Definition msPerDay : Z := 86400000.

Definition Day (t : Z) : Z := t / msPerDay.
Definition TimeWithinDay (t : Z) : Z := t mod msPerDay.

Definition daysPerEra : Z := 146097.
Definition marchEpochShift : Z := 719468.

Definition civilFromDays (day : Z) : Z * Z * Z :=
  let z := day + marchEpochShift in
  let era := z / daysPerEra in
  let doe := z mod daysPerEra in
  let yoe := (doe - doe / 1460 + doe / 36524 - doe / 146096) / 365 in
  let doy := doe - (365 * yoe + yoe / 4 - yoe / 100) in
  let mp := (5 * doy + 2) / 153 in
  let d := doy - (153 * mp + 2) / 5 + 1 in
  let m := if mp <? 10 then mp + 3 else mp - 9 in
  let y := yoe + era * 400 in
  (if m <=? 2 then y + 1 else y, m, d).

Definition daysFromCivil (year month date : Z) : Z :=
  let y := if month <=? 2 then year - 1 else year in
  let era := y / 400 in
  let yoe := y mod 400 in
  let mp := if month <=? 2 then month + 9 else month - 3 in
  let doy := (153 * mp + 2) / 5 + date - 1 in
  let doe := 365 * yoe + yoe / 4 - yoe / 100 + doy in
  era * daysPerEra + doe - marchEpochShift.

Definition YearFromTime (t : Z) : Z := fst (fst (civilFromDays (Day t))).
(** Months count from 0, as [getMonth] reports them. *)
Definition MonthFromTime (t : Z) : Z := snd (fst (civilFromDays (Day t))) - 1.
Definition DateFromTime (t : Z) : Z := snd (civilFromDays (Day t)).

(** *** The host: what the engine and its environment decide

    [LocalTZA t] is the offset of local time from UTC, in milliseconds, at
    the instant [t]; [toLocaleDateString_long] is
    [toLocaleDateString('en-US', {year:'numeric', month:'long',
    day:'numeric'})]; [generatedIds k] is what the [k]-th call of
    [generateId()] returns. *)

Class Host : Type := {
  LocalTZA : Z -> Z;
  toLocaleDateString_long : Date -> string;
  generatedIds : nat -> string
}.

Definition LocalTime `{Host} (t : Z) : Z := t + LocalTZA t.

Definition getFullYear `{Host} (d : Date) : number :=
  match getTime d with Num t => Num (YearFromTime (LocalTime t)) | NaN => NaN end.

Definition getMonth `{Host} (d : Date) : number :=
  match getTime d with Num t => Num (MonthFromTime (LocalTime t)) | NaN => NaN end.

Definition getDate `{Host} (d : Date) : number :=
  match getTime d with Num t => Num (DateFromTime (LocalTime t)) | NaN => NaN end.

(** *** Date Time String Format

    [toISOString] writes [YYYY-MM-DDTHH:mm:ss.sssZ], with the expanded year
    [+YYYYYY] or [-YYYYYY] outside 0..9999, and throws a RangeError ([None])
    on an Invalid Date.  [Date_parse] reads that format and the date-only
    form [YYYY-MM-DD], both in UTC.  These are the two forms the sources
    use; the other forms that an engine accepts are not modelled and read
    as [NaN] here. *)

Definition digitChar (v : Z) : ascii := ascii_of_N (48 + Z.to_N v).

Fixpoint padDigits (width : nat) (v : Z) : string :=
  match width with
  | O => EmptyString
  | S w => padDigits w (v / 10) ++ String (digitChar (v mod 10)) EmptyString
  end.

Definition yearString (y : Z) : string :=
  if (0 <=? y) && (y <=? 9999) then padDigits 4 y
  else if y <? 0 then String "-" (padDigits 6 (- y))
  else String "+" (padDigits 6 y).

Definition isoString (t : Z) : string :=
  let '(y, m, d) := civilFromDays (Day t) in
  let ms := TimeWithinDay t in
  yearString y ++ "-" ++ padDigits 2 m ++ "-" ++ padDigits 2 d
    ++ "T" ++ padDigits 2 (ms / 3600000)
    ++ ":" ++ padDigits 2 (ms / 60000 mod 60)
    ++ ":" ++ padDigits 2 (ms / 1000 mod 60)
    ++ "." ++ padDigits 3 (ms mod 1000) ++ "Z".

Definition toISOString (d : Date) : option string :=
  match getTime d with
  | Num t => if isValidDate d then Some (isoString t) else None
  | NaN => None
  end.

Definition digitValue (c : ascii) : option Z :=
  let n := Z.of_N (N_of_ascii c) in
  if (48 <=? n) && (n <=? 57) then Some (n - 48) else None.

Fixpoint readDigits (width : nat) (acc : Z) (s : string) : option (Z * string) :=
  match width with
  | O => Some (acc, s)
  | S w =>
      match s with
      | String c rest =>
          match digitValue c with
          | Some v => readDigits w (10 * acc + v) rest
          | None => None
          end
      | EmptyString => None
      end
  end.

Definition expectChar (c : ascii) (s : string) : option string :=
  match s with
  | String x rest => if Ascii.eqb x c then Some rest else None
  | EmptyString => None
  end.

Definition bind {A B : Type} (o : option A) (k : A -> option B) : option B :=
  match o with Some a => k a | None => None end.

Notation "x <- o ;; k" := (bind o (fun x => k))
  (at level 61, o at next level, right associativity).
Notation "' p <- o ;; k" := (bind o (fun x => let 'p := x in k))
  (at level 61, p pattern, o at next level, right associativity).

Definition readYear (s : string) : option (Z * string) :=
  match s with
  | String c rest =>
      if Ascii.eqb c "+" then readDigits 6 0 rest
      else if Ascii.eqb c "-" then
        '(y, rest') <- readDigits 6 0 rest ;;
        if y =? 0 then None else Some (- y, rest')
      else readDigits 4 0 s
  | EmptyString => None
  end.

Definition readTimeOfDay (s : string) : option Z :=
  s <- expectChar "T" s ;;
  '(h, s) <- readDigits 2 0 s ;;
  s <- expectChar ":" s ;;
  '(mi, s) <- readDigits 2 0 s ;;
  s <- expectChar ":" s ;;
  '(sec, s) <- readDigits 2 0 s ;;
  s <- expectChar "." s ;;
  '(ms, s) <- readDigits 3 0 s ;;
  s <- expectChar "Z" s ;;
  match s with
  | EmptyString =>
      if (h <=? 23) && (mi <=? 59) && (sec <=? 59)
      then Some (h * 3600000 + mi * 60000 + sec * 1000 + ms)
      else None
  | _ => None
  end.

Definition parseDateTime (s : string) : option Z :=
  '(y, s) <- readYear s ;;
  s <- expectChar "-" s ;;
  '(m, s) <- readDigits 2 0 s ;;
  s <- expectChar "-" s ;;
  '(d, s) <- readDigits 2 0 s ;;
  if (1 <=? m) && (m <=? 12) && (1 <=? d) && (d <=? 31) then
    match s with
    | EmptyString => Some (daysFromCivil y m d * msPerDay)
    | _ => tod <- readTimeOfDay s ;; Some (daysFromCivil y m d * msPerDay + tod)
    end
  else None.

Definition Date_parse (s : string) : number :=
  match parseDateTime s with
  | Some t => TimeClip (Num t)
  | None => NaN
  end.

(** [new Date(string)]. *)
Definition newDateOfString (s : string) : Date := mkDate (Date_parse s).

(** [String(n)] for the integers the core prints. *)
Definition numberToString (n : number) : string :=
  match n with
  | Num z => NilZero.string_of_int (Z.to_int z)
  | NaN => "NaN"
  end.

(** *** String methods

    Indices are numbers, [-1] for "not found", as the callers compute
    with them. *)

(** White space and line terminators, as [trim] and [\s] take them:
    of the code units below 256 these are TAB, LF, VT, FF, CR, the space
    and the no-break space U+00A0. *)
Definition isWhiteSpace (c : ascii) : bool :=
  let n := N_of_ascii c in
  ((9 <=? n) && (n <=? 13) || (n =? 32) || (n =? 160))%N.

(** The lower case of a code unit below 256: of [A] to [Z], and of
    U+00C0 to U+00DE but for the multiplication sign U+00D7. *)
Definition toLowerChar (c : ascii) : ascii :=
  let n := N_of_ascii c in
  if ((65 <=? n) && (n <=? 90) || (192 <=? n) && (n <=? 222) && negb (n =? 215))%N
  then ascii_of_N (n + 32) else c.

Fixpoint toLowerCase (s : string) : string :=
  match s with
  | EmptyString => EmptyString
  | String c rest => String (toLowerChar c) (toLowerCase rest)
  end.

Fixpoint trimStart (s : string) : string :=
  match s with
  | EmptyString => EmptyString
  | String c rest => if isWhiteSpace c then trimStart rest else s
  end.

Fixpoint trimEnd (s : string) : string :=
  match s with
  | EmptyString => EmptyString
  | String c rest =>
      match trimEnd rest with
      | EmptyString => if isWhiteSpace c then EmptyString else String c EmptyString
      | rest' => String c rest'
      end
  end.

Definition trim (s : string) : string := trimEnd (trimStart s).

Definition strlen (s : string) : Z := Z.of_nat (String.length s).

Definition clampIndex (s : string) (i : Z) : nat :=
  Z.to_nat (Z.max 0 (Z.min i (strlen s))).

(** [s.substring(a, b)]: both ends clamped to the string, swapped when
    [a > b]. *)
Definition substring (s : string) (a b : Z) : string :=
  let a' := clampIndex s a in
  let b' := clampIndex s b in
  String.substring (Nat.min a' b') (Nat.max a' b' - Nat.min a' b') s.

Definition substringFrom (s : string) (a : Z) : string :=
  substring s a (strlen s).

Fixpoint startsWith (p s : string) : bool :=
  match p, s with
  | EmptyString, _ => true
  | String a p', String b s' => Ascii.eqb a b && startsWith p' s'
  | String _ _, EmptyString => false
  end.

Fixpoint firstOccurrence (p s : string) : option nat :=
  if startsWith p s then Some O
  else match s with
       | EmptyString => None
       | String _ rest => option_map S (firstOccurrence p rest)
       end.

(** The last occurrence of [p] in [s] that starts at or before [upTo]. *)
Fixpoint lastOccurrence (p s : string) (upTo : nat) : option nat :=
  let here := if startsWith p s then Some O else None in
  match upTo, s with
  | S upTo', String _ rest =>
      match lastOccurrence p rest upTo' with
      | Some i => Some (S i)
      | None => here
      end
  | _, _ => here
  end.

Definition indexOf (s p : string) (from : Z) : Z :=
  let k := clampIndex s from in
  match firstOccurrence p (String.substring k (String.length s - k) s) with
  | Some i => Z.of_nat (k + i)
  | None => -1
  end.

Definition lastIndexOf (s p : string) (from : Z) : Z :=
  match lastOccurrence p s (clampIndex s from) with
  | Some i => Z.of_nat i
  | None => -1
  end.

(** *** The regular expressions of the extractor

    [new RegExp(name.replace(/\s+/g, '\\s*'), 'i')] for a name made of
    letters and blanks: the letters match in either case, each run of
    blanks in the name matches any run of white space, empty included.
    [replace(/\s+/g, ' ')] and [replace(/^\s*[:\-]\s*/, '')] are written
    out as functions. *)

Inductive atom : Type :=
| Lit (c : ascii)
| WhiteSpaceStar.

Definition RegExp : Type := list atom.

Fixpoint wordsRegExp (afterBlank : bool) (name : string) : RegExp :=
  match name with
  | EmptyString => []
  | String c rest =>
      if isWhiteSpace c then
        if afterBlank then wordsRegExp true rest
        else WhiteSpaceStar :: wordsRegExp true rest
      else Lit c :: wordsRegExp false rest
  end.

(** The length of the match of [re] that starts at the head of the
    string, the star taking as much as it can and giving back. *)
Fixpoint matchHere (re : RegExp) : string -> option nat :=
  match re with
  | [] => fun _ => Some O
  | Lit c :: re' =>
      fun s =>
        match s with
        | String x rest =>
            if Ascii.eqb (toLowerChar x) (toLowerChar c)
            then option_map S (matchHere re' rest)
            else None
        | EmptyString => None
        end
  | WhiteSpaceStar :: re' =>
      fix star (s : string) : option nat :=
        match s with
        | String x rest =>
            if isWhiteSpace x then
              match star rest with
              | Some n => Some (S n)
              | None => matchHere re' s
              end
            else matchHere re' s
        | EmptyString => matchHere re' EmptyString
        end
  end.

(** [s.match(re)]: the index and the length of the leftmost match. *)
Fixpoint regexMatch (re : RegExp) (s : string) : option (nat * nat) :=
  match matchHere re s with
  | Some n => Some (O, n)
  | None =>
      match s with
      | EmptyString => None
      | String _ rest =>
          match regexMatch re rest with
          | Some (i, n) => Some (S i, n)
          | None => None
          end
      end
  end.

Fixpoint collapseWhiteSpace (afterBlank : bool) (s : string) : string :=
  match s with
  | EmptyString => EmptyString
  | String c rest =>
      if isWhiteSpace c then
        if afterBlank then collapseWhiteSpace true rest
        else String " " (collapseWhiteSpace true rest)
      else String c (collapseWhiteSpace false rest)
  end.

Definition stripLeadingColonOrDash (s : string) : string :=
  match trimStart s with
  | String c rest =>
      if Ascii.eqb c ":" || Ascii.eqb c "-" then trimStart rest else s
  | EmptyString => s
  end.

End JS.
Import JS.

(** ** types/index.ts *)

Inductive RationaleStatus : Type := Fresh | ReviewDue | Stale.

Definition RationaleStatus_eqb (a b : RationaleStatus) : bool :=
  match a, b with
  | Fresh, Fresh | ReviewDue, ReviewDue | Stale, Stale => true
  | _, _ => false
  end.

Record LoanInfo : Type := mkLoanInfo {
  loan_id : string;
  approvalDate : Date;
  borrowerReference : string
}.

Record ContextualSignal : Type := mkContextualSignal {
  signal_id : string;
  signal_description : string;
  updatedAt : Date
}.

Record Rationale : Type := mkRationale {
  id : string;
  title : string;
  description : string;
  createdAt : Date;
  lastReviewedAt : Date;
  status : RationaleStatus;
  contextualSignals : list ContextualSignal
}.

Record PendingRationale : Type := mkPendingRationale {
  pending_id : string;
  pending_title : string;
  pending_description : string;
  extractedAt : Date;
  sourceText : string
}.

Inductive DataSource : Type := DataNone | DataDemo | DataExtracted.

Record LoanCockpitState : Type := mkState {
  loan : option LoanInfo;
  rationales : list Rationale;
  pendingRationales : list PendingRationale;
  isExtracting : bool;
  showConfirmation : bool;
  dataSource : DataSource
}.

(** ** services/stalenessCalculator.ts *)

Definition FRESH_THRESHOLD_DAYS : Z := 30.
Definition REVIEW_DUE_THRESHOLD_DAYS : Z := 90.

Definition getDaysSinceReview (lastReviewedDate currentDate : Date) : number :=
  let msPerDay := 24 * 60 * 60 * 1000 in
  let diffMs := num_sub_double (getTime currentDate) (getTime lastReviewedDate) in
  Math_floor_div diffMs msPerDay.

Definition calculateStatus (lastReviewedDate currentDate : Date) : RationaleStatus :=
  let daysSinceReview := getDaysSinceReview lastReviewedDate currentDate in
  if num_leb daysSinceReview (Num FRESH_THRESHOLD_DAYS) then Fresh
  else if num_leb daysSinceReview (Num REVIEW_DUE_THRESHOLD_DAYS) then ReviewDue
  else Stale.

(** ** services/confirmationActions.ts *)

Definition confirmPendingRationale (pending : PendingRationale) (confirmTime : Date)
  : Rationale :=
  {| id := pending_id pending;
     title := pending_title pending;
     description := pending_description pending;
     createdAt := confirmTime;
     lastReviewedAt := confirmTime;
     status := calculateStatus confirmTime confirmTime;
     contextualSignals := [] |}.

Definition rejectPendingRationale (pendingList : list PendingRationale)
  (rationaleId : string) : list PendingRationale :=
  filter (fun p => negb (String.eqb (pending_id p) rationaleId)) pendingList.

Definition confirmAllPendingRationales (pendingList : list PendingRationale)
  (confirmTime : Date) : list Rationale :=
  map (fun pending => confirmPendingRationale pending confirmTime) pendingList.

(** ** services/reviewAction.ts *)

(** [{ ...rationale, lastReviewedAt, status }]: the spread keeps every
    other property of [rationale]. *)
Definition markRationaleAsReviewed (rationale : Rationale) (reviewTime : Date)
  : Rationale :=
  {| id := id rationale;
     title := title rationale;
     description := description rationale;
     createdAt := createdAt rationale;
     lastReviewedAt := reviewTime;
     status := calculateStatus reviewTime reviewTime;
     contextualSignals := contextualSignals rationale |}.

(** ** services/approvalLogicAge.ts *)

Definition calculateApprovalLogicAge `{Host} (approvalDate currentDate : Date)
  : number :=
  let approvalYear := getFullYear approvalDate in
  let approvalMonth := getMonth approvalDate in
  let approvalDay := getDate approvalDate in
  let currentYear := getFullYear currentDate in
  let currentMonth := getMonth currentDate in
  let currentDay := getDate currentDate in
  let months :=
    num_add (num_mul (num_sub currentYear approvalYear) (Num 12))
            (num_sub currentMonth approvalMonth) in
  let months :=
    if num_ltb currentDay approvalDay then num_sub months (Num 1) else months in
  Math_max (Num 0) months.

(** ** services/reviewSummary.ts *)

Record ReviewEntry : Type := mkReviewEntry {
  entry_title : string;
  entry_status : RationaleStatus;
  daysSinceReview : number
}.

Record ReviewSummary : Type := mkReviewSummary {
  generatedAt : Date;
  loanId : string;
  rationalesNeedingReview : list ReviewEntry;
  summaryText : string
}.

Definition statusText (s : RationaleStatus) : string :=
  match s with
  | Fresh => "Fresh"
  | ReviewDue => "Review Due"
  | Stale => "Stale"
  end.

Definition needsReview (r : Rationale) : bool :=
  RationaleStatus_eqb (status r) ReviewDue || RationaleStatus_eqb (status r) Stale.

(** [Array.prototype.sort] with a comparator.  When the comparator is
    consistent, as [(a, b) => b.daysSinceReview - a.daysSinceReview] is
    on entries whose day counts are numbers, the result is fixed by the
    language: the stable sort, which this insertion sort computes ([y]
    moves in front of [x] only when [compare x y > 0]).  When the
    comparator returns [NaN], which counts as [0], it is not consistent
    and the order is left to the engine; the statements about the order
    are therefore made for day counts that are numbers. *)
Fixpoint sortInsert {A : Type} (compare : A -> A -> number) (x : A) (l : list A)
  : list A :=
  match l with
  | [] => [x]
  | y :: l' =>
      if num_ltb (Num 0) (compare x y) then y :: sortInsert compare x l'
      else x :: l
  end.

Fixpoint Array_sort {A : Type} (compare : A -> A -> number) (l : list A) : list A :=
  match l with
  | [] => []
  | x :: l' => sortInsert compare x (Array_sort compare l')
  end.

Definition newline : string := String (ascii_of_N 10) EmptyString.

Definition formatDate `{Host} (date : Date) : string :=
  toLocaleDateString_long date.

Definition entryLines (item : ReviewEntry) : list string :=
  [ "• " ++ entry_title item;
    "  Status: " ++ statusText (entry_status item);
    "  Days since last review: " ++ numberToString (daysSinceReview item);
    "" ].

Definition mostStaleFirst (items : list ReviewEntry) : list ReviewEntry :=
  Array_sort (fun a b => num_sub (daysSinceReview b) (daysSinceReview a)) items.

Definition generateSummaryText `{Host} (loanId : string)
  (rationalesNeedingReview : list ReviewEntry) (generatedAt : Date) : string :=
  let lines :=
    [ "ANNUAL REVIEW SUMMARY";
      "=====================";
      "";
      "Loan ID: " ++ loanId;
      "Generated: " ++ formatDate generatedAt;
      "" ] in
  let lines :=
    if (List.length rationalesNeedingReview =? 0)%nat then
      (lines ++ [ "All approval rationales are current. No review required at this time." ])%list
    else
      let lines :=
        (lines ++ [ "RATIONALES REQUIRING REVIEW";
                    "---------------------------";
                    "" ])%list in
      let sorted := mostStaleFirst rationalesNeedingReview in
      let lines := (lines ++ flat_map entryLines sorted)%list in
      (lines ++ [ "---------------------------";
                  ("Total rationales requiring review: "
                     ++ numberToString (Num (Z.of_nat (List.length rationalesNeedingReview))))%string ])%list
  in
  String.concat newline lines.

Definition generateReviewSummary `{Host} (rationales : list Rationale)
  (loanId : string) (currentDate : Date) : ReviewSummary :=
  let needingReview := filter needsReview rationales in
  let rationalesNeedingReview :=
    map (fun r => {| entry_title := title r;
                     entry_status := status r;
                     daysSinceReview := getDaysSinceReview (lastReviewedAt r) currentDate |})
        needingReview in
  let summaryText := generateSummaryText loanId rationalesNeedingReview currentDate in
  {| generatedAt := currentDate;
     loanId := loanId;
     rationalesNeedingReview := rationalesNeedingReview;
     summaryText := summaryText |}.

Definition getRationalesNeedingReview (rationales : list Rationale) : list Rationale :=
  filter needsReview rationales.

(** ** services/rationaleExtractor.ts *)

(** [Map<string, string>], in insertion order. *)
Definition SectionMap : Type := list (string * string).

Fixpoint Map_get (m : SectionMap) (key : string) : option string :=
  match m with
  | [] => None
  | (k, v) :: m' => if String.eqb k key then Some v else Map_get m' key
  end.

Fixpoint Map_set (m : SectionMap) (key value : string) : SectionMap :=
  match m with
  | [] => [(key, value)]
  | (k, v) :: m' =>
      if String.eqb k key then (k, value) :: m' else (k, v) :: Map_set m' key value
  end.

Record SectionDef : Type := mkSectionDef {
  name : string;
  endMarkers : list string
}.

Definition sectionDefs : list SectionDef :=
  [ {| name := "Cash Flow Predictability";
       endMarkers := ["Asset Coverage"; "Collateral"; "Operational"; "Risk Factors";
                      "Approval Recommendation"] |};
    {| name := "Asset Coverage";
       endMarkers := ["Operational"; "Risk Factors"; "Approval Recommendation";
                      "Cash Flow"] |};
    {| name := "Operational Track Record";
       endMarkers := ["Risk Factors"; "Approval Recommendation"; "Prepared By"] |};
    {| name := "Risk Factors and Mitigants";
       endMarkers := ["Approval Recommendation"; "Prepared By"; "Reviewed By"] |};
    {| name := "Executive Summary";
       endMarkers := ["Key Approval"; "Cash Flow"; "Collateral"; "Risk Factors"] |} ].

Definition sectionEnd (text : string) (startIndex : Z) (endMarkers : list string) : Z :=
  fold_left
    (fun endIndex endMarker =>
       let endRegex := wordsRegExp false endMarker in
       match regexMatch endRegex (substringFrom text startIndex) with
       | Some (index, _) =>
           let potentialEnd := startIndex + Z.of_nat index in
           if (potentialEnd <? endIndex) && (startIndex + 20 <? potentialEnd)
           then potentialEnd else endIndex
       | None => endIndex
       end)
    endMarkers (strlen text).

Definition extractSections (text : string) : SectionMap :=
  fold_left
    (fun sections sectionDef =>
       let headerRegex := wordsRegExp false (name sectionDef) in
       match regexMatch headerRegex text with
       | Some (index, matched) =>
           let startIndex := Z.of_nat index + Z.of_nat matched in
           let endIndex := sectionEnd text startIndex (endMarkers sectionDef) in
           let content := trim (substring text startIndex endIndex) in
           let content := trim (stripLeadingColonOrDash (collapseWhiteSpace false content)) in
           if 20 <? strlen content then Map_set sections (name sectionDef) content
           else sections
       | None => sections
       end)
    sectionDefs [].

(** [generateId()] is called once for each rationale pushed, so the id of
    the rationale pushed onto [k] earlier ones is the [k]-th generated. *)
Definition pushRationale `{Host} (rationales : list PendingRationale)
  (title description : string) (now : Date) (sourceText : string)
  : list PendingRationale :=
  (rationales ++
  [ {| pending_id := generatedIds (List.length rationales);
       pending_title := title;
       pending_description := description;
       extractedAt := now;
       sourceText := sourceText |} ])%list.

Definition ellipsisAfter350 (content : string) : string :=
  if 350 <? strlen content then "..." else "".

Definition sectionMappings : list (string * string) :=
  [ ("Cash Flow Predictability", "Cash Flow Predictability");
    ("Asset Coverage", "Asset Coverage / Collateral");
    ("Operational Track Record", "Operational Track Record");
    ("Risk Factors and Mitigants", "Risk Factors and Mitigants") ].

Definition sectionRationales `{Host} (now : Date) (sections : SectionMap)
  : list PendingRationale :=
  fold_left
    (fun rationales mapping =>
       let '(sectionName, title) := mapping in
       match Map_get sections sectionName with
       | Some sectionContent =>
           if 20 <? strlen sectionContent then
             pushRationale rationales title
               (trim (substring sectionContent 0 350) ++ ellipsisAfter350 sectionContent)
               now sectionContent
           else rationales
       | None => rationales
       end)
    sectionMappings [].

Definition fallbackPatterns : list (string * string) :=
  [ ("cash flow", "Cash Flow Analysis");
    ("collateral", "Collateral Evaluation");
    ("management", "Management Assessment");
    ("operational", "Operational Assessment");
    ("risk", "Risk Assessment") ].

Definition keywordRationales `{Host} (now : Date) (text : string)
  (rationales : list PendingRationale) : list PendingRationale :=
  let lowerText := toLowerCase text in
  fold_left
    (fun rationales pattern =>
       let '(keyword, title) := pattern in
       let keywordIndex := indexOf lowerText keyword 0 in
       if keywordIndex =? -1 then rationales
       else
         let sentenceStart := Z.max 0 (lastIndexOf text "." keywordIndex + 1) in
         let sentenceEnd := indexOf text "." (keywordIndex + strlen keyword) in
         let endIndex :=
           if sentenceEnd =? -1 then keywordIndex + 300
           else Z.min (sentenceEnd + 1) (keywordIndex + 300) in
         let context := trim (substring text sentenceStart endIndex) in
         if 30 <? strlen context then
           pushRationale rationales title
             (substring context 0 350 ++ ellipsisAfter350 context) now context
         else rationales)
    fallbackPatterns rationales.

Definition mockExtractRationales `{Host} (now : Date) (text : string)
  : list PendingRationale :=
  let sections := extractSections text in
  let rationales := sectionRationales now sections in
  let rationales :=
    if (List.length rationales =? 0)%nat then keywordRationales now text rationales
    else rationales in
  if (List.length rationales =? 0)%nat && (0 <? strlen (trim text)) then
    let execSummary := Map_get sections "Executive Summary" in
    let content :=
      match execSummary with
      | Some summary => if (0 <? strlen summary) then summary else substring text 0 500
      | None => substring text 0 500
      end in
    pushRationale rationales "Approval Rationale"
      (trim (substring content 0 350) ++ ellipsisAfter350 content) now content
  else rationales.

(** ** services/demoData.ts

    [clock k] is what the [k]-th evaluation of [new Date()] returns. *)

Definition createDemoLoan : LoanInfo :=
  {| loan_id := "CML-2024-00847";
     approvalDate := newDateOfString "2024-03-15";
     borrowerReference := "REF-ACME-2024" |}.

Definition daysBefore (now : Date) (days : Z) : Date :=
  newDate (num_sub (getTime now) (Num (days * 24 * 60 * 60 * 1000))).

Record DemoSignals : Type := mkDemoSignals {
  revenue : list ContextualSignal;
  collateral : list ContextualSignal;
  management : list ContextualSignal
}.

Definition createContextualSignals (now : Date) : DemoSignals :=
  {| revenue :=
       [ {| signal_id := "sig-001";
            signal_description := "Industry revenue data updated 2 weeks ago";
            updatedAt := daysBefore now 14 |} ];
     collateral :=
       [ {| signal_id := "sig-002";
            signal_description := "Regional property index updated 6 weeks ago";
            updatedAt := daysBefore now 42 |} ];
     management :=
       [ {| signal_id := "sig-003";
            signal_description := "Executive team composition unchanged";
            updatedAt := daysBefore now 30 |};
         {| signal_id := "sig-004";
            signal_description := "Industry leadership benchmark updated 4 months ago";
            updatedAt := daysBefore now 120 |} ] |}.

Definition createDemoRationales (clock : nat -> Date) : list Rationale :=
  let now := clock 0%nat in
  let signals := createContextualSignals (clock 1%nat) in
  let freshReviewDate := daysBefore now 15 in
  let reviewDueDate := daysBefore now 45 in
  let staleReviewDate := daysBefore now 120 in
  let createdAt := newDateOfString "2024-03-15" in
  [ {| id := "rat-001";
       title := "Revenue Stability Assessment";
       description := "Borrower demonstrated 3 consecutive years of stable revenue growth with diversified customer base.";
       createdAt := createdAt;
       lastReviewedAt := freshReviewDate;
       status := calculateStatus freshReviewDate now;
       contextualSignals := revenue signals |};
    {| id := "rat-002";
       title := "Collateral Valuation Basis";
       description := "Property valuation based on Q1 2024 appraisal with 15% haircut applied per policy.";
       createdAt := createdAt;
       lastReviewedAt := reviewDueDate;
       status := calculateStatus reviewDueDate now;
       contextualSignals := collateral signals |};
    {| id := "rat-003";
       title := "Management Experience Consideration";
       description := "CEO has 20+ years industry experience; CFO previously at Fortune 500 company.";
       createdAt := createdAt;
       lastReviewedAt := staleReviewDate;
       status := calculateStatus staleReviewDate now;
       contextualSignals := management signals |} ].

Definition loadDemoData (clock : nat -> Date) : LoanInfo * list Rationale :=
  (createDemoLoan, createDemoRationales clock).

(** ** context/LoanCockpitContext.tsx: the reducer *)

Inductive LoanCockpitAction : Type :=
| LOAD_DEMO_DATA
| START_EXTRACTION (loan : LoanInfo) (pendingRationales : list PendingRationale)
| SET_LOAN (payload : LoanInfo)
| SET_RATIONALES (payload : list Rationale)
| ADD_PENDING_RATIONALES (payload : list PendingRationale)
| CONFIRM_RATIONALE (payload : PendingRationale)
| REJECT_RATIONALE (payload : string)
| CONFIRM_ALL_RATIONALES
| MARK_REVIEWED (payload : string)
| SET_EXTRACTING (payload : bool)
| SET_SHOW_CONFIRMATION (payload : bool)
| CLEAR_STATE
| RESTORE_STATE (payload : LoanCockpitState)
| SET_EXTRACTION_ERROR.

Definition initialState : LoanCockpitState :=
  {| loan := None;
     rationales := [];
     pendingRationales := [];
     isExtracting := false;
     showConfirmation := false;
     dataSource := DataNone |}.

(** Each case builds [{ ...state, <the fields it names> }]; the clock is
    read as the case reads it. *)
Definition loanCockpitReducer (clock : nat -> Date) (state : LoanCockpitState)
  (action : LoanCockpitAction) : LoanCockpitState :=
  match action with
  | LOAD_DEMO_DATA =>
      let demoData := loadDemoData clock in
      {| loan := Some (fst demoData);
         rationales := snd demoData;
         pendingRationales := [];
         isExtracting := isExtracting state;
         showConfirmation := false;
         dataSource := DataDemo |}
  | START_EXTRACTION payloadLoan payloadPending =>
      {| loan := Some payloadLoan;
         rationales := [];
         pendingRationales := payloadPending;
         isExtracting := false;
         showConfirmation := (0 <? List.length payloadPending)%nat;
         dataSource := DataExtracted |}
  | SET_EXTRACTION_ERROR =>
      {| loan := loan initialState;
         rationales := rationales initialState;
         pendingRationales := pendingRationales initialState;
         isExtracting := false;
         showConfirmation := showConfirmation initialState;
         dataSource := dataSource initialState |}
  | SET_LOAN payload =>
      {| loan := Some payload;
         rationales := rationales state;
         pendingRationales := pendingRationales state;
         isExtracting := isExtracting state;
         showConfirmation := showConfirmation state;
         dataSource := dataSource state |}
  | SET_RATIONALES payload =>
      {| loan := loan state;
         rationales := payload;
         pendingRationales := pendingRationales state;
         isExtracting := isExtracting state;
         showConfirmation := showConfirmation state;
         dataSource := dataSource state |}
  | ADD_PENDING_RATIONALES payload =>
      {| loan := loan state;
         rationales := rationales state;
         pendingRationales := (pendingRationales state ++ payload)%list;
         isExtracting := isExtracting state;
         showConfirmation := (0 <? List.length payload)%nat;
         dataSource := dataSource state |}
  | CONFIRM_RATIONALE pending =>
      let now := clock 0%nat in
      let newRationale :=
        {| id := pending_id pending;
           title := pending_title pending;
           description := pending_description pending;
           createdAt := now;
           lastReviewedAt := now;
           status := calculateStatus now now;
           contextualSignals := [] |} in
      {| loan := loan state;
         rationales := (rationales state ++ [newRationale])%list;
         pendingRationales :=
           filter (fun p => negb (String.eqb (pending_id p) (pending_id pending)))
                  (pendingRationales state);
         isExtracting := isExtracting state;
         showConfirmation := (1 <? List.length (pendingRationales state))%nat;
         dataSource := dataSource state |}
  | REJECT_RATIONALE payload =>
      {| loan := loan state;
         rationales := rationales state;
         pendingRationales :=
           filter (fun p => negb (String.eqb (pending_id p) payload))
                  (pendingRationales state);
         isExtracting := isExtracting state;
         showConfirmation := (1 <? List.length (pendingRationales state))%nat;
         dataSource := dataSource state |}
  | CONFIRM_ALL_RATIONALES =>
      let now := clock 0%nat in
      let newRationales :=
        map (fun pending =>
               {| id := pending_id pending;
                  title := pending_title pending;
                  description := pending_description pending;
                  createdAt := now;
                  lastReviewedAt := now;
                  status := calculateStatus now now;
                  contextualSignals := [] |})
            (pendingRationales state) in
      {| loan := loan state;
         rationales := (rationales state ++ newRationales)%list;
         pendingRationales := [];
         isExtracting := isExtracting state;
         showConfirmation := false;
         dataSource := dataSource state |}
  | MARK_REVIEWED payload =>
      let now := clock 0%nat in
      {| loan := loan state;
         rationales :=
           map (fun r =>
                  if String.eqb (id r) payload then
                    {| id := id r;
                       title := title r;
                       description := description r;
                       createdAt := createdAt r;
                       lastReviewedAt := now;
                       status := calculateStatus now now;
                       contextualSignals := contextualSignals r |}
                  else r)
               (rationales state);
         pendingRationales := pendingRationales state;
         isExtracting := isExtracting state;
         showConfirmation := showConfirmation state;
         dataSource := dataSource state |}
  | SET_EXTRACTING payload =>
      {| loan := loan state;
         rationales := rationales state;
         pendingRationales := pendingRationales state;
         isExtracting := payload;
         showConfirmation := showConfirmation state;
         dataSource := dataSource state |}
  | SET_SHOW_CONFIRMATION payload =>
      {| loan := loan state;
         rationales := rationales state;
         pendingRationales := pendingRationales state;
         isExtracting := isExtracting state;
         showConfirmation := payload;
         dataSource := dataSource state |}
  | CLEAR_STATE => initialState
  | RESTORE_STATE payload => payload
  end.

(** ** context/LoanCockpitContext.tsx: the persisted snapshot

    [serializeState] hands [JSON.stringify] a plain object in which every
    Date has been replaced by its ISO string, and [deserializeState] gets
    the same object back from [JSON.parse]: it holds only strings,
    booleans, [null], arrays and plain objects.  The snapshot types below
    are the shape of that object; [snapshot_dataSource] is [None] when the
    stored text has no [dataSource] property.  [serializeState] is [None]
    when [toISOString] throws. *)

Record LoanInfoSnapshot : Type := mkLoanInfoSnapshot {
  snapshot_loan_id : string;
  snapshot_approvalDate : string;
  snapshot_borrowerReference : string
}.

Record ContextualSignalSnapshot : Type := mkContextualSignalSnapshot {
  snapshot_signal_id : string;
  snapshot_signal_description : string;
  snapshot_updatedAt : string
}.

Record RationaleSnapshot : Type := mkRationaleSnapshot {
  snapshot_id : string;
  snapshot_title : string;
  snapshot_description : string;
  snapshot_createdAt : string;
  snapshot_lastReviewedAt : string;
  snapshot_status : RationaleStatus;
  snapshot_contextualSignals : list ContextualSignalSnapshot
}.

Record PendingRationaleSnapshot : Type := mkPendingRationaleSnapshot {
  snapshot_pending_id : string;
  snapshot_pending_title : string;
  snapshot_pending_description : string;
  snapshot_extractedAt : string;
  snapshot_sourceText : string
}.

Record Snapshot : Type := mkSnapshot {
  snapshot_loan : option LoanInfoSnapshot;
  snapshot_rationales : list RationaleSnapshot;
  snapshot_pendingRationales : list PendingRationaleSnapshot;
  snapshot_isExtracting : bool;
  snapshot_showConfirmation : bool;
  snapshot_dataSource : option DataSource
}.

(** [xs.map(f)] for an [f] that may throw. *)
Fixpoint mapThrowing {A B : Type} (f : A -> option B) (xs : list A) : option (list B) :=
  match xs with
  | [] => Some []
  | x :: xs' =>
      y <- f x ;;
      ys <- mapThrowing f xs' ;;
      Some (y :: ys)
  end.

Definition serializeLoan (l : LoanInfo) : option LoanInfoSnapshot :=
  iso <- toISOString (approvalDate l) ;;
  Some {| snapshot_loan_id := loan_id l;
          snapshot_approvalDate := iso;
          snapshot_borrowerReference := borrowerReference l |}.

Definition serializeSignal (s : ContextualSignal) : option ContextualSignalSnapshot :=
  iso <- toISOString (updatedAt s) ;;
  Some {| snapshot_signal_id := signal_id s;
          snapshot_signal_description := signal_description s;
          snapshot_updatedAt := iso |}.

Definition serializeRationale (r : Rationale) : option RationaleSnapshot :=
  created <- toISOString (createdAt r) ;;
  reviewed <- toISOString (lastReviewedAt r) ;;
  signals <- mapThrowing serializeSignal (contextualSignals r) ;;
  Some {| snapshot_id := id r;
          snapshot_title := title r;
          snapshot_description := description r;
          snapshot_createdAt := created;
          snapshot_lastReviewedAt := reviewed;
          snapshot_status := status r;
          snapshot_contextualSignals := signals |}.

Definition serializePending (p : PendingRationale) : option PendingRationaleSnapshot :=
  iso <- toISOString (extractedAt p) ;;
  Some {| snapshot_pending_id := pending_id p;
          snapshot_pending_title := pending_title p;
          snapshot_pending_description := pending_description p;
          snapshot_extractedAt := iso;
          snapshot_sourceText := sourceText p |}.

Definition serializeState (state : LoanCockpitState) : option Snapshot :=
  loan' <- match loan state with
           | Some l => l' <- serializeLoan l ;; Some (Some l')
           | None => Some None
           end ;;
  rationales' <- mapThrowing serializeRationale (rationales state) ;;
  pending' <- mapThrowing serializePending (pendingRationales state) ;;
  Some {| snapshot_loan := loan';
          snapshot_rationales := rationales';
          snapshot_pendingRationales := pending';
          snapshot_isExtracting := isExtracting state;
          snapshot_showConfirmation := showConfirmation state;
          snapshot_dataSource := Some (dataSource state) |}.

Definition deserializeLoan (l : LoanInfoSnapshot) : LoanInfo :=
  {| loan_id := snapshot_loan_id l;
     approvalDate := newDateOfString (snapshot_approvalDate l);
     borrowerReference := snapshot_borrowerReference l |}.

Definition deserializeSignal (s : ContextualSignalSnapshot) : ContextualSignal :=
  {| signal_id := snapshot_signal_id s;
     signal_description := snapshot_signal_description s;
     updatedAt := newDateOfString (snapshot_updatedAt s) |}.

Definition deserializeRationale (r : RationaleSnapshot) : Rationale :=
  {| id := snapshot_id r;
     title := snapshot_title r;
     description := snapshot_description r;
     createdAt := newDateOfString (snapshot_createdAt r);
     lastReviewedAt := newDateOfString (snapshot_lastReviewedAt r);
     status := snapshot_status r;
     contextualSignals := map deserializeSignal (snapshot_contextualSignals r) |}.

Definition deserializePending (p : PendingRationaleSnapshot) : PendingRationale :=
  {| pending_id := snapshot_pending_id p;
     pending_title := snapshot_pending_title p;
     pending_description := snapshot_pending_description p;
     extractedAt := newDateOfString (snapshot_extractedAt p);
     sourceText := snapshot_sourceText p |}.

Definition deserializeState (parsed : Snapshot) : LoanCockpitState :=
  {| loan := option_map deserializeLoan (snapshot_loan parsed);
     rationales := map deserializeRationale (snapshot_rationales parsed);
     pendingRationales := map deserializePending (snapshot_pendingRationales parsed);
     isExtracting := snapshot_isExtracting parsed;
     showConfirmation := snapshot_showConfirmation parsed;
     dataSource := match snapshot_dataSource parsed with
                   | Some source => source
                   | None => DataNone
                   end |}.

(** The Date-typed fields of a state are all valid dates. *)
Definition signalDatesValid (s : ContextualSignal) : bool := isValidDate (updatedAt s).

Definition rationaleDatesValid (r : Rationale) : bool :=
  isValidDate (createdAt r) && isValidDate (lastReviewedAt r)
  && forallb signalDatesValid (contextualSignals r).

Definition stateDatesValid (state : LoanCockpitState) : bool :=
  match loan state with
  | Some l => isValidDate (approvalDate l)
  | None => true
  end
  && forallb rationaleDatesValid (rationales state)
  && forallb (fun p => isValidDate (extractedAt p)) (pendingRationales state).

(** A host for the worked examples: UTC, the en-US long date of a
    common-era year, ids numbered from 0. *)
Definition monthNames : list string :=
  [ "January"; "February"; "March"; "April"; "May"; "June"; "July"; "August";
    "September"; "October"; "November"; "December" ].

Definition longDateUTC (d : Date) : string :=
  match getTime d with
  | Num t =>
      nth (Z.to_nat (MonthFromTime t)) monthNames ""
        ++ " " ++ numberToString (Num (DateFromTime t))
        ++ ", " ++ numberToString (Num (YearFromTime t))
  | NaN => "Invalid Date"
  end.

Definition utcHost : Host :=
  {| LocalTZA := fun _ => 0;
     toLocaleDateString_long := longDateUTC;
     generatedIds := fun k => "rat-" ++ numberToString (Num (Z.of_nat k)) |}.

(** ** Vocabulary of the statements *)

(** [p] carries the id of [pending]. *)
Definition sameId (pending : PendingRationale) (p : PendingRationale) : bool :=
  String.eqb (pending_id p) (pending_id pending).

(** The day count of every entry is a number. *)
Definition daysAreNumbers (items : list ReviewEntry) : Prop :=
  Forall (fun entry => exists days, daysSinceReview entry = Num days) items.

(** Most stale first: the day counts are numbers, and each is at least
    as large as every one after it. *)
Definition MostStaleFirst (items : list ReviewEntry) : Prop :=
  exists days,
    map daysSinceReview items = map Num days /\ StronglySorted Z.ge days.

(** The lines of a summary that lists [printed] and counts [total]. *)
Definition reviewLines `{Host} (loanId : string) (generatedAt : Date)
  (printed : list ReviewEntry) (total : nat) : list string :=
  ([ "ANNUAL REVIEW SUMMARY"; "====================="; "";
     ("Loan ID: " ++ loanId)%string; ("Generated: " ++ formatDate generatedAt)%string; "";
     "RATIONALES REQUIRING REVIEW"; "---------------------------"; "" ]
   ++ flat_map entryLines printed
   ++ [ "---------------------------";
        ("Total rationales requiring review: "
           ++ numberToString (Num (Z.of_nat total)))%string ])%list.

(** ** Worked examples *)

Definition exampleDue : Rationale :=
  {| id := "rat-002";
     title := "Collateral Valuation Basis";
     description := "Property valuation based on Q1 2024 appraisal.";
     createdAt := newDateOfString "2024-03-15";
     lastReviewedAt := newDateOfString "2024-11-13";
     status := ReviewDue;
     contextualSignals := [] |}.

Definition exampleStale : Rationale :=
  {| id := "rat-003";
     title := "Management Experience Consideration";
     description := "CEO has 20+ years industry experience.";
     createdAt := newDateOfString "2024-03-15";
     lastReviewedAt := newDateOfString "2024-08-30";
     status := Stale;
     contextualSignals := [] |}.

(** A rationale whose review is dated three days after 28 December 2024. *)
Definition exampleAhead : Rationale :=
  {| id := "rat-004";
     title := "Sponsor Support";
     description := "Sponsor has committed to an equity cure.";
     createdAt := newDateOfString "2024-03-15";
     lastReviewedAt := newDateOfString "2024-12-31";
     status := ReviewDue;
     contextualSignals := [] |}.

Definition examplePending (ident : string) : PendingRationale :=
  {| pending_id := ident;
     pending_title := "Cash Flow Predictability";
     pending_description := "Contracted revenue covers debt service twice over.";
     extractedAt := newDateOfString "2024-12-28";
     sourceText := "Contracted revenue covers debt service twice over." |}.

Definition exampleState (pending : list PendingRationale) : LoanCockpitState :=
  {| loan := Some createDemoLoan;
     rationales := [];
     pendingRationales := pending;
     isExtracting := false;
     showConfirmation := true;
     dataSource := DataExtracted |}.

(** A clock that starts on 28 December 2024, 12:00 UTC. *)
Definition exampleClock (k : nat) : Date := dateOfMs (1735387200000 + Z.of_nat k).

Definition exampleNow : Date := newDateOfString "2024-12-28".

Definition genericText : string :=
  "This is some generic text without specific keywords that is long enough to be extracted.".

(** ** services/fileValidation.ts *)

(** [s.endsWith(suffix)]. *)
Definition endsWith (s suffix : string) : bool :=
  let n := String.length s in
  let m := String.length suffix in
  (m <=? n)%nat && String.eqb (String.substring (n - m) m s) suffix.

Record FileValidationResult : Type := mkFileValidationResult {
  isValid : bool;
  error : option string
}.

(** Of the [File] only the name is read. *)
Definition validatePdfFile (file_name : string) : FileValidationResult :=
  let fileName := toLowerCase file_name in
  if negb (endsWith fileName ".pdf") then
    {| isValid := false; error := Some "Please import a PDF file" |}
  else {| isValid := true; error := None |}.

Definition isPdfExtension (fileName : string) : bool :=
  endsWith (toLowerCase fileName) ".pdf".

Definition isPdfMimeType (mimeType : string) : bool :=
  String.eqb mimeType "application/pdf".

(** ** components/ConfirmationModal.tsx: confirming with edits

    [editingState] is a plain object: its own properties map the id of a
    pending rationale to the title and description typed for it, and
    what it has not it inherits from [Object.prototype].
    [handleConfirm] gives the payload it hands to [onConfirm]; [None] is
    the TypeError of [edits.title.substring] when [edits] is an inherited
    member, which has no [title]. *)

Record Edits : Type := mkEdits {
  edit_title : string;
  edit_description : string
}.

(** The own properties, the latest first. *)
Definition EditingState : Type := list (string * Edits).

Fixpoint editsFor (editingState : EditingState) (key : string) : option Edits :=
  match editingState with
  | [] => None
  | (k, e) :: rest => if String.eqb k key then Some e else editsFor rest key
  end.

(** The property names of [Object.prototype]. *)
Definition objectPrototypeKeys : list string :=
  [ "constructor"; "hasOwnProperty"; "isPrototypeOf"; "propertyIsEnumerable";
    "toLocaleString"; "toString"; "valueOf"; "__proto__";
    "__defineGetter__"; "__defineSetter__"; "__lookupGetter__"; "__lookupSetter__" ].

Definition isInherited (key : string) : bool :=
  existsb (String.eqb key) objectPrototypeKeys.

(** [editingState[key]]. *)
Inductive PropertyValue : Type :=
| OwnEdits (edits : Edits)
| InheritedMember
| Undefined.

Definition getProperty (editingState : EditingState) (key : string) : PropertyValue :=
  match editsFor editingState key with
  | Some edits => OwnEdits edits
  | None => if isInherited key then InheritedMember else Undefined
  end.

Definition handleConfirm (editingState : EditingState) (rationale : PendingRationale)
  : option PendingRationale :=
  match getProperty editingState (pending_id rationale) with
  | OwnEdits edits =>
      Some {| pending_id := pending_id rationale;
              pending_title := substring (edit_title edits) 0 100;
              pending_description := substring (edit_description edits) 0 250;
              extractedAt := extractedAt rationale;
              sourceText := sourceText rationale |}
  | InheritedMember => None
  | Undefined => Some rationale
  end.

(** [handleStartEdit]: [{ ...editingState, [rationale.id]: { title,
    description } }]. *)
Definition handleStartEdit (editingState : EditingState) (rationale : PendingRationale)
  : EditingState :=
  (pending_id rationale,
   {| edit_title := pending_title rationale;
      edit_description := pending_description rationale |}) :: editingState.

(** ** More vocabulary *)

(** Fresh before Review Due before Stale. *)
Definition statusRank (s : RationaleStatus) : Z :=
  match s with Fresh => 0 | ReviewDue => 1 | Stale => 2 end.

(** Months since year 0, as [getFullYear() * 12 + getMonth()] counts them. *)
Definition monthNumber (t : Z) : Z := YearFromTime t * 12 + MonthFromTime t.

(** Some character of [s] is not white space. *)
Fixpoint hasInk (s : string) : bool :=
  match s with
  | EmptyString => false
  | String c rest => negb (isWhiteSpace c) || hasInk rest
  end.

(** [part] occurs in [text]. *)
Definition contains (text part : string) : Prop :=
  exists before after, text = before ++ part ++ after.

Definition number_eqb (a b : number) : bool :=
  match a, b with
  | Num x, Num y => x =? y
  | NaN, NaN => true
  | _, _ => false
  end.

(** Dispatching actions one after the other. *)
Definition dispatchAll (clock : nat -> Date) (state : LoanCockpitState)
  (actions : list LoanCockpitAction) : LoanCockpitState :=
  fold_left (loanCockpitReducer clock) actions state.

(** The dates an action brings into the state are valid: those of its
    payload, the instant it reads from the clock, and for the demo data
    the instants 120 days before the two clock readings. *)
Definition actionDatesValid (clock : nat -> Date) (action : LoanCockpitAction) : bool :=
  match action with
  | LOAD_DEMO_DATA =>
      isValidDate (clock 0%nat) && isValidDate (daysBefore (clock 0%nat) 120)
      && isValidDate (clock 1%nat) && isValidDate (daysBefore (clock 1%nat) 120)
  | START_EXTRACTION l ps =>
      isValidDate (approvalDate l) && forallb (fun p => isValidDate (extractedAt p)) ps
  | SET_LOAN l => isValidDate (approvalDate l)
  | SET_RATIONALES rs => forallb rationaleDatesValid rs
  | ADD_PENDING_RATIONALES ps => forallb (fun p => isValidDate (extractedAt p)) ps
  | CONFIRM_RATIONALE _ | CONFIRM_ALL_RATIONALES | MARK_REVIEWED _ =>
      isValidDate (clock 0%nat)
  | RESTORE_STATE s => stateDatesValid s
  | REJECT_RATIONALE _ | SET_EXTRACTING _ | SET_SHOW_CONFIRMATION _
  | CLEAR_STATE | SET_EXTRACTION_ERROR => true
  end.

Definition sectionNames : list string := map name sectionDefs.

(** A section content as [extractSections] keeps it. *)
Definition goodSection (content : string) : Prop :=
  20 < strlen content /\ trim content = content /\ hasInk content = true.

Definition wellFormedPending (now : Date) (p : PendingRationale) : Prop :=
  pending_title p <> "" /\ pending_description p <> "" /\ sourceText p <> ""
  /\ extractedAt p = now.

(** The rationales pushed so far are well formed and carry the first
    generated ids, in order. *)
Definition extractedSoFar `{Host} (now : Date) (rationales : list PendingRationale)
  : Prop :=
  Forall (wellFormedPending now) rationales
  /\ map pending_id rationales = map generatedIds (seq 0 (List.length rationales)).

(** * Properties *)

(** ** The calendar and the Date Time String Format *)

Lemma eraDay_bounds (doe : Z) :
  0 <= doe < 146097 ->
  let yoe := (doe - doe / 1460 + doe / 36524 - doe / 146096) / 365 in
  let doy := doe - (365 * yoe + yoe / 4 - yoe / 100) in
  let mp := (5 * doy + 2) / 153 in
  let d := doy - (153 * mp + 2) / 5 + 1 in
  0 <= yoe <= 399 /\ 0 <= doy <= 365 /\ 0 <= mp <= 11 /\ 1 <= d <= 31.
Proof.
  intros H yoe doy mp d. subst d mp doy yoe.
  Z.div_mod_to_equations; lia.
Qed.

(** [daysFromCivil] finds the day that [civilFromDays] took apart. *)
Lemma daysFromCivil_civilFromDays (day : Z) :
  let '(y, m, d) := civilFromDays day in
  daysFromCivil y m d = day /\ 1 <= m <= 12 /\ 1 <= d <= 31.
Proof.
  unfold civilFromDays, daysFromCivil, daysPerEra, marchEpochShift.
  set (z := day + 719468).
  assert (Hdoe : 0 <= z mod 146097 < 146097) by (apply Z.mod_pos_bound; lia).
  pose proof (Z.div_mod z 146097 ltac:(lia)) as Hz.
  set (era := z / 146097) in *. set (doe := z mod 146097) in *.
  pose proof (eraDay_bounds doe Hdoe) as Hb. cbv zeta in Hb.
  set (yoe := (doe - doe / 1460 + doe / 36524 - doe / 146096) / 365) in *.
  set (doy := doe - (365 * yoe + yoe / 4 - yoe / 100)) in *.
  set (mp := (5 * doy + 2) / 153) in *.
  set (d := doy - (153 * mp + 2) / 5 + 1) in *.
  destruct Hb as (Hyoe & Hdoy & Hmp & Hd).
  assert (Hera : (yoe + era * 400) / 400 = era).
  { rewrite Z.div_add by lia. rewrite Z.div_small by lia. lia. }
  assert (Hyoe' : (yoe + era * 400) mod 400 = yoe).
  { rewrite Z.mod_add by lia. apply Z.mod_small. lia. }
  destruct (mp <? 10) eqn:Hlt.
  - apply Z.ltb_lt in Hlt.
    replace (mp + 3 <=? 2) with false by (symmetry; apply Z.leb_gt; lia).
    rewrite Hera, Hyoe'.
    replace (mp + 3 - 3) with mp by lia.
    split; [|lia]. subst d doy z. lia.
  - apply Z.ltb_ge in Hlt.
    replace (mp - 9 <=? 2) with true by (symmetry; apply Z.leb_le; lia).
    replace (yoe + era * 400 + 1 - 1) with (yoe + era * 400) by lia.
    rewrite Hera, Hyoe'.
    replace (mp - 9 + 9) with mp by lia.
    split; [|lia]. subst d doy z. lia.
Qed.

Lemma year_of_day_bounds (day : Z) :
  -100000000 <= day <= 100000000 ->
  -999999 <= fst (fst (civilFromDays day)) <= 999999.
Proof.
  intros Hday. unfold civilFromDays, daysPerEra, marchEpochShift.
  set (z := day + 719468).
  assert (Hdoe : 0 <= z mod 146097 < 146097) by (apply Z.mod_pos_bound; lia).
  pose proof (eraDay_bounds _ Hdoe) as Hb. cbv zeta in Hb.
  destruct Hb as (Hyoe & _).
  assert (Hera : -1000 <= z / 146097 <= 1000) by (subst z; Z.div_mod_to_equations; lia).
  match goal with |- context [if ?b then _ else _] => destruct b end; simpl; lia.
Qed.

Lemma digit_cases (v : Z) :
  0 <= v <= 9 ->
  v = 0 \/ v = 1 \/ v = 2 \/ v = 3 \/ v = 4 \/ v = 5 \/ v = 6 \/ v = 7 \/ v = 8 \/ v = 9.
Proof. lia. Qed.

Ltac each_digit v H :=
  destruct (digit_cases v H) as [->|[->|[->|[->|[->|[->|[->|[->|[->| ->]]]]]]]]].

Lemma digitValue_digitChar (v : Z) : 0 <= v <= 9 -> digitValue (digitChar v) = Some v.
Proof. intros H. each_digit v H; reflexivity. Qed.

Lemma digitChar_not_sign (v : Z) :
  0 <= v <= 9 ->
  Ascii.eqb (digitChar v) "+" = false /\ Ascii.eqb (digitChar v) "-" = false.
Proof. intros H. each_digit v H; split; reflexivity. Qed.

Lemma append_assoc (a b c : string) : (a ++ b) ++ c = a ++ (b ++ c).
Proof. induction a as [|x a IH]; simpl; [reflexivity|now rewrite IH]. Qed.

(** One more digit, read after [n] others. *)
Lemma readDigits_snoc (n : nat) :
  forall acc s read c rest v,
    readDigits n acc s = Some (read, String c rest) ->
    digitValue c = Some v ->
    readDigits (S n) acc s = Some (10 * read + v, rest).
Proof.
  induction n as [|n IH]; intros acc s read c rest v Hread Hc.
  - simpl in Hread. injection Hread as -> ->. simpl. now rewrite Hc.
  - cbn [readDigits] in Hread |- *.
    destruct s as [|c0 s0]; [discriminate|].
    destruct (digitValue c0) as [v0|]; [|discriminate].
    exact (IH _ _ _ _ _ _ Hread Hc).
Qed.

(** Reading [width] digits off the front of a padded number. *)
Lemma readDigits_padDigits (width : nat) :
  forall v acc rest,
    0 <= v < 10 ^ Z.of_nat width ->
    readDigits width acc (padDigits width v ++ rest)
    = Some (acc * 10 ^ Z.of_nat width + v, rest).
Proof.
  induction width as [|w IH]; intros v acc rest Hv.
  - simpl in *. f_equal; f_equal; lia.
  - rewrite Nat2Z.inj_succ, Z.pow_succ_r in * by lia.
    cbn [padDigits]. rewrite append_assoc. cbn [append].
    assert (Hq : 0 <= v / 10 < 10 ^ Z.of_nat w) by (Z.div_mod_to_equations; lia).
    assert (Hr : 0 <= v mod 10 <= 9) by (Z.div_mod_to_equations; lia).
    pose proof (Z.div_mod v 10 ltac:(lia)) as Hsplit.
    rewrite (readDigits_snoc w _ _ _ _ _ _ (IH (v / 10) acc _ Hq)
               (digitValue_digitChar _ Hr)).
    f_equal; f_equal; lia.
Qed.

Lemma readYear_yearString (y : Z) (rest : string) :
  -999999 <= y <= 999999 ->
  readYear (yearString y ++ rest) = Some (y, rest).
Proof.
  intros Hy. unfold yearString.
  destruct ((0 <=? y) && (y <=? 9999)) eqn:Hsmall.
  - apply andb_true_iff in Hsmall as [H0 H9]. apply Z.leb_le in H0, H9.
    pose proof (readDigits_padDigits 4 y 0 rest ltac:(simpl; lia)) as Hread.
    assert (Hhead : exists c tail, padDigits 4 y ++ rest = String c tail
                                   /\ Ascii.eqb c "+" = false /\ Ascii.eqb c "-" = false).
    { cbn [padDigits append]. eexists _, _. split; [reflexivity|].
      apply digitChar_not_sign. Z.div_mod_to_equations; lia. }
    destruct Hhead as (c & tail & Heq & Hplus & Hminus).
    unfold readYear. rewrite Heq, Hplus, Hminus, <- Heq, Hread.
    f_equal; f_equal; lia.
  - destruct (y <? 0) eqn:Hneg.
    + apply Z.ltb_lt in Hneg. cbn [append readYear]. simpl (Ascii.eqb "-" "+").
      simpl (Ascii.eqb "-" "-"). cbv iota.
      rewrite (readDigits_padDigits 6 (- y) 0 rest) by (simpl; lia).
      cbn [bind]. replace (0 * 10 ^ Z.of_nat 6 + - y =? 0) with false
        by (symmetry; apply Z.eqb_neq; lia).
      f_equal; f_equal; lia.
    + apply Z.ltb_ge in Hneg. cbn [append readYear]. simpl (Ascii.eqb "+" "+"). cbv iota.
      rewrite (readDigits_padDigits 6 y 0 rest) by (simpl; lia).
      f_equal; f_equal; lia.
Qed.

Ltac past_separator c :=
  cbn [append expectChar bind]; simpl (Ascii.eqb c c); cbv iota; cbn [bind].

Lemma readTimeOfDay_format (ms : Z) :
  0 <= ms < msPerDay ->
  readTimeOfDay ("T" ++ padDigits 2 (ms / 3600000)
                   ++ ":" ++ padDigits 2 (ms / 60000 mod 60)
                   ++ ":" ++ padDigits 2 (ms / 1000 mod 60)
                   ++ "." ++ padDigits 3 (ms mod 1000) ++ "Z") = Some ms.
Proof.
  unfold msPerDay. intros Hms. unfold readTimeOfDay.
  past_separator "T"%char.
  rewrite readDigits_padDigits by (simpl; Z.div_mod_to_equations; lia).
  past_separator ":"%char.
  rewrite readDigits_padDigits by (simpl; Z.div_mod_to_equations; lia).
  past_separator ":"%char.
  rewrite readDigits_padDigits by (simpl; Z.div_mod_to_equations; lia).
  past_separator "."%char.
  rewrite readDigits_padDigits by (simpl; Z.div_mod_to_equations; lia).
  past_separator "Z"%char.
  replace ((0 * 10 ^ Z.of_nat 2 + ms / 3600000 <=? 23)
           && (0 * 10 ^ Z.of_nat 2 + ms / 60000 mod 60 <=? 59)
           && (0 * 10 ^ Z.of_nat 2 + ms / 1000 mod 60 <=? 59)) with true.
  - f_equal. simpl Z.of_nat. Z.div_mod_to_equations. lia.
  - symmetry. rewrite !andb_true_iff, !Z.leb_le. simpl Z.of_nat.
    Z.div_mod_to_equations. lia.
Qed.

(** Parsing the ISO string of a time value in range gives it back, to
    the millisecond. *)
Lemma parseDateTime_isoString (t : Z) :
  - maxTimeValue <= t <= maxTimeValue ->
  parseDateTime (isoString t) = Some t.
Proof.
  unfold maxTimeValue. intros Ht. unfold isoString.
  pose proof (daysFromCivil_civilFromDays (Day t)) as Hcivil.
  assert (Hday : -100000000 <= Day t <= 100000000)
    by (unfold Day, msPerDay; Z.div_mod_to_equations; lia).
  pose proof (year_of_day_bounds _ Hday) as Hyear.
  destruct (civilFromDays (Day t)) as [[y m] d]. simpl in Hyear.
  destruct Hcivil as (Hback & Hm & Hd).
  unfold parseDateTime.
  rewrite readYear_yearString by exact Hyear.
  past_separator "-"%char.
  rewrite readDigits_padDigits by (simpl; lia).
  past_separator "-"%char.
  rewrite readDigits_padDigits by (simpl; lia).
  cbn [bind]. simpl Z.of_nat. rewrite !Z.mul_0_l, !Z.add_0_l.
  replace ((1 <=? m) && (m <=? 12) && (1 <=? d) && (d <=? 31)) with true
    by (symmetry; rewrite !andb_true_iff, !Z.leb_le; lia).
  change ("T" ++ ?x) with (String "T" x). cbv iota.
  change (String "T" ?x) with ("T" ++ x).
  rewrite readTimeOfDay_format by (apply Z.mod_pos_bound; unfold msPerDay; lia).
  cbn [bind]. f_equal. rewrite Hback. unfold Day, TimeWithinDay.
  pose proof (Z.div_mod t msPerDay ltac:(unfold msPerDay; lia)). lia.
Qed.

Lemma toISOString_valid (d : Date) :
  isValidDate d = true -> exists iso, toISOString d = Some iso.
Proof.
  unfold toISOString. intros Hvalid. rewrite Hvalid.
  unfold isValidDate in Hvalid. destruct (getTime d); [eauto|discriminate].
Qed.

Lemma toISOString_invalid (d : Date) :
  isValidDate d = false -> toISOString d = None.
Proof.
  unfold toISOString. intros Hinvalid. rewrite Hinvalid. now destruct (getTime d).
Qed.

(** [new Date(d.toISOString())] is [d]. *)
Lemma newDateOfString_toISOString (d : Date) (iso : string) :
  toISOString d = Some iso -> newDateOfString iso = d.
Proof.
  destruct d as [[t|]]; unfold toISOString, isValidDate; cbn [getTime]; [|discriminate].
  destruct ((- maxTimeValue <=? t) && (t <=? maxTimeValue)) eqn:Hrange; [|discriminate].
  intros [= <-]. unfold newDateOfString, Date_parse.
  apply andb_true_iff in Hrange as Hr. destruct Hr as [Hlo Hhi].
  apply Z.leb_le in Hlo, Hhi.
  rewrite parseDateTime_isoString by lia.
  unfold TimeClip. now rewrite Hrange.
Qed.

(** ** Doubles *)

Lemma roundHalfEven_cases (n d : Z) :
  0 < d ->
  (roundHalfEven n d = n / d /\ 2 * (n mod d) <= d)
  \/ (roundHalfEven n d = n / d + 1 /\ d <= 2 * (n mod d)).
Proof.
  intros Hd. unfold roundHalfEven.
  destruct (Z.ltb_spec (2 * (n mod d)) d); [left; split; [reflexivity|lia]|].
  destruct (Z.ltb_spec d (2 * (n mod d))); [right; split; [reflexivity|lia]|].
  destruct (Z.even (n / d)); [left|right]; split; (reflexivity || lia).
Qed.

Lemma binary64_exact (z : Z) : Z.abs z <= 2 ^ 53 -> binary64 z = z.
Proof.
  intros Hz. unfold binary64.
  destruct (Z.leb_spec (Z.log2 (Z.abs z)) 52) as [_|Hlog]; [reflexivity|].
  assert (Habs : Z.abs z = 2 ^ 53).
  { destruct (Z.eq_dec (Z.abs z) (2 ^ 53)) as [|Hne]; [assumption|].
    assert (Hlt : Z.abs z < 2 ^ 53) by lia.
    destruct (Z.eq_dec (Z.abs z) 0) as [H0|H0]; [rewrite H0 in Hlog; simpl in Hlog; lia|].
    apply Z.log2_lt_pow2 in Hlt; lia. }
  destruct (Z.abs_eq_or_opp z) as [E|E]; rewrite E in Habs.
  - subst z. reflexivity.
  - assert (z = - 2 ^ 53) by lia. subst z. reflexivity.
Qed.

(** Beyond 2^53 and below 2^54 the doubles are the even integers. *)
Lemma binary64_large (z : Z) :
  2 ^ 53 < Z.abs z < 2 ^ 54 ->
  z - 1 <= binary64 z <= z + 1 /\ 2 ^ 53 <= Z.abs (binary64 z) <= 2 ^ 54.
Proof.
  intros Hz. unfold binary64.
  assert (Hlog : Z.log2 (Z.abs z) = 53).
  { apply Z.log2_unique; lia. }
  rewrite Hlog. change (53 <=? 52) with false. change (2 ^ (53 - 52)) with 2. cbv iota.
  destruct (roundHalfEven_cases z 2 ltac:(lia)) as [[-> Hr]|[-> Hr]];
    change (2 ^ 53) with 9007199254740992 in *; change (2 ^ 54) with 18014398509481984 in *;
    Z.div_mod_to_equations; lia.
Qed.

Lemma binaryExponent_small (x : Z) :
  x <> 0 -> Z.abs x <= 2 ^ 53 -> binaryExponent x 86400000 <= 26.
Proof.
  intros Hx Hrange. unfold binaryExponent.
  destruct (Z.leb_spec 86400000 (Z.abs x)).
  - assert (Hq : 0 < Z.abs x / 86400000 < 2 ^ 27).
    { change (2 ^ 53) with 9007199254740992 in Hrange. change (2 ^ 27) with 134217728.
      Z.div_mod_to_equations. lia. }
    assert (Z.log2 (Z.abs x / 86400000) < 27) by (apply Z.log2_lt_pow2; lia). lia.
  - pose proof (Z.log2_up_nonneg ((86400000 + Z.abs x - 1) / Z.abs x)). lia.
Qed.

Lemma floor_of_rounded (x d P : Z) :
  0 < d -> d < 2 * P -> roundHalfEven (x * P) d / P = x / d.
Proof.
  intros Hd HP.
  assert (HP0 : 0 < P) by lia.
  pose proof (Z.div_mod x d ltac:(lia)) as Hx.
  pose proof (Z.mod_pos_bound x d Hd) as Hr.
  set (q := x / d) in *. set (r := x mod d) in *.
  pose proof (Z.div_mod (x * P) d ltac:(lia)) as Hn.
  pose proof (Z.mod_pos_bound (x * P) d Hd) as Ht.
  symmetry. apply Z.div_unique_pos with (r := roundHalfEven (x * P) d - P * q).
  2: lia.
  destruct (roundHalfEven_cases (x * P) d Hd) as [[-> Hc]|[-> Hc]];
    set (m := x * P / d) in *; set (t := (x * P) mod d) in *.
  - assert (q * P <= m) by nia. assert (m < (q + 1) * P) by nia. lia.
  - assert (q * P <= m) by nia.
    assert (m + 1 < (q + 1) * P).
    { assert (r * P = (m - q * P) * d + t) by nia.
      assert (m - q * P <= P - 1) by nia.
      destruct (Z.eq_dec (m - q * P) (P - 1)); [|lia]. nia. }
    lia.
Qed.

Lemma floorOfQuotient_exact (x : Z) :
  Z.abs x <= 2 ^ 53 -> floorOfQuotient x 86400000 = x / 86400000.
Proof.
  intros Hrange. unfold floorOfQuotient.
  destruct (Z.eqb_spec x 0) as [->|Hx]; [reflexivity|]. cbv zeta.
  pose proof (binaryExponent_small x Hx Hrange) as He.
  destruct (Z.leb_spec (binaryExponent x 86400000) 52); [|lia].
  apply floor_of_rounded; [lia|].
  assert (2 ^ 26 <= 2 ^ (52 - binaryExponent x 86400000))
    by (apply Z.pow_le_mono_r; lia).
  change (2 ^ 26) with 67108864 in *. lia.
Qed.

(** Rounding does not cross an integer: the floor of the rounded quotient
    lies between the floor and the ceiling of the quotient. *)
Lemma floor_of_rounded_bounds (x d P : Z) :
  0 < d -> 0 < P ->
  x / d <= roundHalfEven (x * P) d / P <= - ((- x) / d).
Proof.
  intros Hd HP.
  pose proof (Z.div_mod x d ltac:(lia)) as Hx.
  pose proof (Z.mod_pos_bound x d Hd) as Hr.
  pose proof (Z.div_mod (- x) d ltac:(lia)) as Hx'.
  pose proof (Z.mod_pos_bound (- x) d Hd) as Hr'.
  set (q := x / d) in *. set (r := x mod d) in *.
  set (q' := (- x) / d) in *. set (r' := (- x) mod d) in *.
  pose proof (Z.div_mod (x * P) d ltac:(lia)) as Hn.
  pose proof (Z.mod_pos_bound (x * P) d Hd) as Ht.
  split.
  - apply Z.div_le_lower_bound; [exact HP|].
    destruct (roundHalfEven_cases (x * P) d Hd) as [[-> Hc]|[-> Hc]];
      set (m := x * P / d) in *; set (t := (x * P) mod d) in *; nia.
  - apply Z.div_le_upper_bound; [exact HP|].
    destruct (roundHalfEven_cases (x * P) d Hd) as [[-> Hc]|[-> Hc]];
      set (m := x * P / d) in *; set (t := (x * P) mod d) in *.
    + nia.
    + assert (0 < t) by lia. nia.
Qed.

Lemma floorOfQuotient_large (y : Z) :
  2 ^ 53 <= Z.abs y <= 2 ^ 54 ->
  y / 86400000 <= floorOfQuotient y 86400000 <= - ((- y) / 86400000).
Proof.
  intros Hrange. unfold floorOfQuotient.
  change (2 ^ 53) with 9007199254740992 in Hrange.
  change (2 ^ 54) with 18014398509481984 in Hrange.
  destruct (Z.eqb_spec y 0) as [->|Hy]; [simpl in Hrange; lia|]. cbv zeta.
  assert (He : binaryExponent y 86400000 <= 52).
  { unfold binaryExponent. destruct (Z.leb_spec 86400000 (Z.abs y)); [|lia].
    assert (Hq : 0 < Z.abs y / 86400000 < 2 ^ 28).
    { change (2 ^ 28) with 268435456. Z.div_mod_to_equations. lia. }
    assert (Z.log2 (Z.abs y / 86400000) < 28) by (apply Z.log2_lt_pow2; lia). lia. }
  destruct (Z.leb_spec (binaryExponent y 86400000) 52); [|lia].
  apply floor_of_rounded_bounds; [lia|]. apply Z.pow_pos_nonneg; lia.
Qed.

(** ** Staleness *)

Lemma isValidDate_range (t : Z) :
  isValidDate (dateOfMs t) = true <-> - maxTimeValue <= t <= maxTimeValue.
Proof.
  unfold isValidDate. cbn [getTime dateOfMs]. rewrite andb_true_iff, !Z.leb_le. reflexivity.
Qed.

Lemma getDaysSinceReview_dateOfMs (tl tn : Z) :
  getDaysSinceReview (dateOfMs tl) (dateOfMs tn)
  = Num (floorOfQuotient (binary64 (tn - tl)) 86400000).
Proof. reflexivity. Qed.

(** Between dates at most 2^53 ms apart nothing is rounded. *)
Lemma getDaysSinceReview_valid (tl tn : Z) :
  Z.abs (tn - tl) <= 2 ^ 53 ->
  getDaysSinceReview (dateOfMs tl) (dateOfMs tn) = Num ((tn - tl) / 86400000).
Proof.
  intros Hspan. rewrite getDaysSinceReview_dateOfMs.
  rewrite (binary64_exact _ Hspan). now rewrite (floorOfQuotient_exact _ Hspan).
Qed.

(** Between any two valid dates the day count is within one day of the
    exact quotient, and on the same side of 0, 30 and 90. *)
Lemma getDaysSinceReview_range (tl tn : Z) :
  - maxTimeValue <= tl <= maxTimeValue -> - maxTimeValue <= tn <= maxTimeValue ->
  exists days,
    getDaysSinceReview (dateOfMs tl) (dateOfMs tn) = Num days /\
    (tn - tl) / 86400000 - 1 <= days <= (tn - tl) / 86400000 + 1 /\
    (Z.abs (tn - tl) <= 2 ^ 53 -> days = (tn - tl) / 86400000) /\
    (0 <= days <-> tl <= tn) /\
    (days <= 30 <-> (tn - tl) / 86400000 <= 30) /\
    (days <= 90 <-> (tn - tl) / 86400000 <= 90).
Proof.
  unfold maxTimeValue. intros Hl Hn.
  destruct (Z_le_gt_dec (Z.abs (tn - tl)) (2 ^ 53)) as [Hspan|Hspan].
  - exists ((tn - tl) / 86400000). split; [now apply getDaysSinceReview_valid|].
    split; [lia|]. split; [reflexivity|]. split; [|split; reflexivity].
    Z.div_mod_to_equations. lia.
  - exists (floorOfQuotient (binary64 (tn - tl)) 86400000).
    split; [apply getDaysSinceReview_dateOfMs|].
    assert (Hfar : 2 ^ 53 < Z.abs (tn - tl) < 2 ^ 54)
      by (change (2 ^ 54) with 18014398509481984; lia).
    destruct (binary64_large _ Hfar) as [Hnear Hbig].
    pose proof (floorOfQuotient_large _ Hbig) as Hfloor.
    revert Hnear Hbig Hfloor. generalize (binary64 (tn - tl)). intros y Hnear Hbig Hfloor.
    revert Hfloor. generalize (floorOfQuotient y 86400000). intros days Hfloor.
    change (2 ^ 53) with 9007199254740992 in *.
    change (2 ^ 54) with 18014398509481984 in *.
    split; [|split; [lia|]]; [|split; [|split]]; Z.div_mod_to_equations; lia.
Qed.

Lemma calculateStatus_of_days (lastReviewedAt now : Date) (days : Z) :
  getDaysSinceReview lastReviewedAt now = Num days ->
  calculateStatus lastReviewedAt now =
    if days <=? 30 then Fresh else if days <=? 90 then ReviewDue else Stale.
Proof. unfold calculateStatus. intros ->. reflexivity. Qed.

(** The status between two valid dates is that of the exact day count. *)
Lemma calculateStatus_valid (tl tn : Z) :
  - maxTimeValue <= tl <= maxTimeValue -> - maxTimeValue <= tn <= maxTimeValue ->
  calculateStatus (dateOfMs tl) (dateOfMs tn) =
    let days := (tn - tl) / 86400000 in
    if days <=? 30 then Fresh else if days <=? 90 then ReviewDue else Stale.
Proof.
  intros Hl Hn.
  destruct (getDaysSinceReview_range tl tn Hl Hn) as (days & Hdays & _ & _ & _ & H30 & H90).
  rewrite (calculateStatus_of_days _ _ _ Hdays). cbv zeta.
  destruct (Z.leb_spec days 30); destruct (Z.leb_spec ((tn - tl) / 86400000) 30);
    try reflexivity; try lia;
    destruct (Z.leb_spec days 90); destruct (Z.leb_spec ((tn - tl) / 86400000) 90);
    try reflexivity; lia.
Qed.

Lemma calculateStatus_same_instant (t : Z) :
  calculateStatus (dateOfMs t) (dateOfMs t) = Fresh.
Proof.
  rewrite (calculateStatus_of_days _ _ 0); [reflexivity|].
  rewrite getDaysSinceReview_valid; rewrite Z.sub_diag; [reflexivity|].
  simpl. lia.
Qed.

(** With an Invalid Date the day count is [NaN], both comparisons fail
    and the status is [Stale]. *)
Remark calculateStatus_invalid :
  getDaysSinceReview InvalidDate InvalidDate = NaN /\
  calculateStatus InvalidDate InvalidDate = Stale.
Proof. split; reflexivity. Qed.

(** C1. Between a valid [lastReviewedAt] and a valid [now], with [days]
    the whole days elapsed from the one to the other, [calculateStatus]
    is Fresh for [days <= 30], Review Due for [31 <= days <= 90] and
    Stale for [days > 90]; in particular 30 gives Fresh, 31 and 90 give
    Review Due, and 91 gives Stale.  What [getDaysSinceReview] counts
    is on the same side of 30 and of 90 as [days], and is [days] between
    dates at most 2^53 ms apart.  An Invalid Date on either side, from
    which no days are counted, gives Stale. *)
Theorem calculateStatus_tiers (tl tn : Z)
  (Hlast : isValidDate (dateOfMs tl) = true)
  (Hnow : isValidDate (dateOfMs tn) = true) :
  let lastReviewedAt := dateOfMs tl in
  let now := dateOfMs tn in
  let days := (tn - tl) / 86400000 in
  (days <= 30 -> calculateStatus lastReviewedAt now = Fresh) /\
  (31 <= days <= 90 -> calculateStatus lastReviewedAt now = ReviewDue) /\
  (90 < days -> calculateStatus lastReviewedAt now = Stale) /\
  (days = 30 -> calculateStatus lastReviewedAt now = Fresh) /\
  (days = 31 -> calculateStatus lastReviewedAt now = ReviewDue) /\
  (days = 90 -> calculateStatus lastReviewedAt now = ReviewDue) /\
  (days = 91 -> calculateStatus lastReviewedAt now = Stale) /\
  (exists counted,
      getDaysSinceReview lastReviewedAt now = Num counted /\
      (counted <= 30 <-> days <= 30) /\
      (counted <= 90 <-> days <= 90) /\
      (Z.abs (tn - tl) <= 2 ^ 53 -> counted = days)) /\
  calculateStatus InvalidDate now = Stale /\
  calculateStatus lastReviewedAt InvalidDate = Stale.
Proof.
  cbv zeta. apply isValidDate_range in Hlast, Hnow.
  rewrite (calculateStatus_valid tl tn Hlast Hnow). cbv zeta.
  destruct (getDaysSinceReview_range tl tn Hlast Hnow)
    as (counted & Hcounted & _ & Hexact & _ & H30 & H90).
  repeat split; try reflexivity;
    try (exists counted; split; [exact Hcounted|];
         split; [exact H30|split; [exact H90|exact Hexact]]);
    intros H;
    destruct (Z.leb_spec ((tn - tl) / 86400000) 30);
    destruct (Z.leb_spec ((tn - tl) / 86400000) 90);
    try reflexivity; lia.
Qed.

(** 1 June 2024 to 31 August 2024 is 91 days: Stale. *)
Lemma calculateStatus_tiers_witness :
  getDaysSinceReview (newDateOfString "2024-06-01") (newDateOfString "2024-08-31") = Num 91 /\
  calculateStatus (newDateOfString "2024-06-01") (newDateOfString "2024-08-31") = Stale.
Proof.
  split; [reflexivity|].
  apply (proj1 (proj2 (proj2
           (calculateStatus_tiers 1717200000000 1725062400000 eq_refl eq_refl)))).
  reflexivity.
Defined.

(** The boundary cases of the unit tests, counted from 1 June 2024. *)
Example calculateStatus_boundaries :
  calculateStatus (newDateOfString "2024-06-01") (newDateOfString "2024-07-01") = Fresh /\
  calculateStatus (newDateOfString "2024-06-01") (newDateOfString "2024-07-02") = ReviewDue /\
  calculateStatus (newDateOfString "2024-06-01") (newDateOfString "2024-08-30") = ReviewDue /\
  calculateStatus (newDateOfString "2024-06-01") (newDateOfString "2024-08-31") = Stale.
Proof. repeat split. Qed.

(** Between the first and the last millisecond a Date can hold, less
    one, the difference is rounded up to 200,000,000 days, one more than
    the whole days elapsed. *)
Example getDaysSinceReview_rounded :
  getDaysSinceReview (dateOfMs (-8639999999999999)) (dateOfMs 8640000000000000)
  = Num 200000000 /\
  (8640000000000000 - -8639999999999999) / 86400000 = 199999999.
Proof. split; reflexivity. Qed.

Lemma needingReview_entries `{Host} (rationales : list Rationale) (loanId : string)
  (currentDate : Date) :
  rationalesNeedingReview (generateReviewSummary rationales loanId currentDate)
  = map (fun r => {| entry_title := title r;
                     entry_status := status r;
                     daysSinceReview := getDaysSinceReview (lastReviewedAt r) currentDate |})
        (filter needsReview rationales).
Proof. reflexivity. Qed.

(** C4, as stated, fails: on 28 December 2024 a review dated 31 December
    2024 is [-3] days old, and the summary lists it so. *)
Lemma getDaysSinceReview_negative :
  getDaysSinceReview (newDateOfString "2024-12-31") exampleNow = Num (-3) /\
  ~ (exists days,
        getDaysSinceReview (newDateOfString "2024-12-31") exampleNow = Num days
        /\ 0 <= days) /\
  map daysSinceReview
      (rationalesNeedingReview
         (generateReviewSummary (H:=utcHost) [exampleAhead] "CML-2024-00847" exampleNow))
  = [Num (-3)].
Proof.
  split; [reflexivity|]. split; [|reflexivity].
  intros (days & Heq & Hpos). cbv in Heq. injection Heq as <-. lia.
Qed.

(** C4, amended. Between valid dates with time values [tl] and [tn],
    [getDaysSinceReview] is an integer, non-negative exactly when
    [tl <= tn].  It is [floor ((tn - tl) / 86400000)] when the dates are at
    most 2^53 ms apart; beyond, where the difference is rounded to a
    double, it is within one day of that.  Every entry of
    [rationalesNeedingReview] carries a non-negative [daysSinceReview]
    when no rationale was last reviewed after [now]. *)
Theorem getDaysSinceReview_floor `{Host} (tl tn : Z) (rationales : list Rationale)
  (loanId : string)
  (Hlast : isValidDate (dateOfMs tl) = true)
  (Hnow : isValidDate (dateOfMs tn) = true) :
  (exists days,
      getDaysSinceReview (dateOfMs tl) (dateOfMs tn) = Num days /\
      (Z.abs (tn - tl) <= 2 ^ 53 ->
       days * 86400000 <= tn - tl < (days + 1) * 86400000) /\
      (tn - tl) / 86400000 - 1 <= days <= (tn - tl) / 86400000 + 1 /\
      (0 <= days <-> tl <= tn)) /\
  (Forall (fun r => exists t, lastReviewedAt r = dateOfMs t
                              /\ isValidDate (dateOfMs t) = true /\ t <= tn) rationales ->
   Forall (fun entry => exists days, daysSinceReview entry = Num days /\ 0 <= days)
          (rationalesNeedingReview
             (generateReviewSummary rationales loanId (dateOfMs tn)))).
Proof.
  apply isValidDate_range in Hlast, Hnow. split.
  - destruct (getDaysSinceReview_range tl tn Hlast Hnow)
      as (days & Hdays & Hnear & Hexact & Hsign & _).
    exists days. split; [exact Hdays|]. split; [|split; [exact Hnear|exact Hsign]].
    intros Hspan. rewrite (Hexact Hspan). Z.div_mod_to_equations. lia.
  - intros Hpast. rewrite needingReview_entries. apply Forall_map.
    apply Forall_forall. intros r Hin. apply filter_In in Hin as [Hin _].
    rewrite Forall_forall in Hpast. destruct (Hpast r Hin) as (t & -> & Hvalid & Hle).
    apply isValidDate_range in Hvalid. cbn [daysSinceReview].
    destruct (getDaysSinceReview_range t tn Hvalid Hnow) as (days & Hdays & _ & _ & Hsign & _).
    exists days. split; [exact Hdays|]. now apply Hsign.
Qed.

Lemma getDaysSinceReview_floor_witness :
  Forall (fun entry => exists days, daysSinceReview entry = Num days /\ 0 <= days)
         (rationalesNeedingReview
            (generateReviewSummary (H:=utcHost) [exampleDue; exampleStale]
               "CML-2024-00847" (dateOfMs 1735344000000))).
Proof.
  apply (proj2 (@getDaysSinceReview_floor utcHost 0 1735344000000
                  [exampleDue; exampleStale] "CML-2024-00847" eq_refl eq_refl)).
  constructor; [|constructor; [|constructor]].
  - exists 1731456000000. split; [reflexivity|]. split; [reflexivity|lia].
  - exists 1724976000000. split; [reflexivity|]. split; [reflexivity|lia].
Defined.

(** ** Confirmation and review *)

Lemma confirmAll_nth (pendingList : list PendingRationale) (confirmTime : Date)
  (k : nat) :
  nth_error (confirmAllPendingRationales pendingList confirmTime) k
  = option_map (fun p => confirmPendingRationale p confirmTime) (nth_error pendingList k).
Proof. unfold confirmAllPendingRationales. apply nth_error_map. Qed.

(** C6. [confirmPendingRationale] sets [createdAt] and [lastReviewedAt]
    to the confirm time, [status] to
    [calculateStatus confirmTime confirmTime], which is Fresh at every
    instant, and [contextualSignals] to the empty list, and keeps id,
    title and description; [confirmAllPendingRationales] confirms every
    element, in order. *)
Theorem confirmPendingRationale_spec (pending : PendingRationale) (confirmTime : Date)
  (pendingList : list PendingRationale) :
  let confirmed := confirmPendingRationale pending confirmTime in
  createdAt confirmed = confirmTime /\
  lastReviewedAt confirmed = confirmTime /\
  status confirmed = calculateStatus confirmTime confirmTime /\
  (forall t, status (confirmPendingRationale pending (dateOfMs t)) = Fresh) /\
  contextualSignals confirmed = [] /\
  id confirmed = pending_id pending /\
  title confirmed = pending_title pending /\
  description confirmed = pending_description pending /\
  confirmAllPendingRationales pendingList confirmTime
  = map (fun p => confirmPendingRationale p confirmTime) pendingList /\
  List.length (confirmAllPendingRationales pendingList confirmTime)
  = List.length pendingList /\
  (forall k, nth_error (confirmAllPendingRationales pendingList confirmTime) k
             = option_map (fun p => confirmPendingRationale p confirmTime)
                          (nth_error pendingList k)).
Proof.
  cbv zeta. repeat split.
  - intros t. apply calculateStatus_same_instant.
  - unfold confirmAllPendingRationales. apply length_map.
  - apply confirmAll_nth.
Qed.

(** C7. [markRationaleAsReviewed] sets [lastReviewedAt] to the review
    time and [status] to [calculateStatus reviewTime reviewTime], which is
    Fresh at every instant; id, title, description, [createdAt] and
    [contextualSignals] are those of the rationale given. *)
Theorem markRationaleAsReviewed_spec (rationale : Rationale) (reviewTime : Date) :
  let updated := markRationaleAsReviewed rationale reviewTime in
  lastReviewedAt updated = reviewTime /\
  status updated = calculateStatus reviewTime reviewTime /\
  (forall t, status (markRationaleAsReviewed rationale (dateOfMs t)) = Fresh) /\
  id updated = id rationale /\
  title updated = title rationale /\
  description updated = description rationale /\
  createdAt updated = createdAt rationale /\
  contextualSignals updated = contextualSignals rationale.
Proof.
  cbv zeta. repeat split. intros t. apply calculateStatus_same_instant.
Qed.

(** ** Approval logic age *)

(** C8. For dates with time values [ta] and [tc],
    [calculateApprovalLogicAge] is
    [(currentYear - approvalYear) * 12 + (currentMonth - approvalMonth)],
    less 1 when the current day of month is below the approval day of
    month, and 0 when that is negative; it is 0 for a date against
    itself and never negative, also when the approval date lies ahead. *)
Theorem calculateApprovalLogicAge_spec `{Host} (ta tc : Z) :
  let approvalYear := YearFromTime (LocalTime ta) in
  let approvalMonth := MonthFromTime (LocalTime ta) in
  let approvalDay := DateFromTime (LocalTime ta) in
  let currentYear := YearFromTime (LocalTime tc) in
  let currentMonth := MonthFromTime (LocalTime tc) in
  let currentDay := DateFromTime (LocalTime tc) in
  let months := (currentYear - approvalYear) * 12 + (currentMonth - approvalMonth) in
  let age := calculateApprovalLogicAge (dateOfMs ta) (dateOfMs tc) in
  age = Num (Z.max 0 (if currentDay <? approvalDay then months - 1 else months)) /\
  calculateApprovalLogicAge (dateOfMs ta) (dateOfMs ta) = Num 0 /\
  exists n, age = Num n /\ 0 <= n.
Proof.
  cbv zeta. unfold calculateApprovalLogicAge, getFullYear, getMonth, getDate.
  cbn [getTime dateOfMs num_sub num_mul num_add num_ltb].
  split; [|split].
  - now destruct (_ <? _).
  - rewrite Z.ltb_irrefl. cbn [Math_max]. f_equal. lia.
  - destruct (_ <? _); cbn [num_sub Math_max]; eexists; (split; [reflexivity|lia]).
Qed.

(** The cases of the unit tests, in UTC. *)
Example calculateApprovalLogicAge_tests :
  calculateApprovalLogicAge (H:=utcHost)
    (newDateOfString "2024-11-30") (newDateOfString "2024-12-15") = Num 0 /\
  calculateApprovalLogicAge (H:=utcHost)
    (newDateOfString "2023-06-15") (newDateOfString "2024-12-28") = Num 18 /\
  calculateApprovalLogicAge (H:=utcHost)
    (newDateOfString "2025-06-15") (newDateOfString "2024-12-28") = Num 0.
Proof. repeat split. Qed.

(** ** The review summary *)

Section SortByKey.

Context {A : Type} (key : A -> number).

Let compare (a b : A) : number := num_sub (key b) (key a).
Let inOrder (a b : A) : Prop := num_ltb (key a) (key b) = false.

Lemma compare_positive (x y : A) :
  num_ltb (Num 0) (compare x y) = num_ltb (key x) (key y).
Proof.
  unfold compare. destruct (key x) as [a|], (key y) as [b|]; simpl; try reflexivity.
  destruct (Z.ltb_spec 0 (b - a)); destruct (Z.ltb_spec a b); try reflexivity; lia.
Qed.

Lemma smaller_key_goes_after (x y : A) :
  num_ltb (key x) (key y) = true -> inOrder y x.
Proof.
  unfold inOrder. destruct (key x), (key y); simpl; try discriminate.
  intros Hlt. apply Z.ltb_lt in Hlt. apply Z.ltb_ge. lia.
Qed.

Lemma sortInsert_HdRel (x a : A) (l : list A) :
  HdRel inOrder a l -> inOrder a x -> HdRel inOrder a (sortInsert compare x l).
Proof.
  intros Hhd Hax. destruct l as [|y l]; cbn [sortInsert]; [now constructor|].
  destruct (num_ltb (Num 0) (compare x y)); constructor; [|exact Hax].
  now inversion Hhd.
Qed.

Lemma sortInsert_Sorted (x : A) (l : list A) :
  Sorted inOrder l -> Sorted inOrder (sortInsert compare x l).
Proof.
  induction 1 as [|y l Hsorted IH Hhd]; cbn [sortInsert]; [repeat constructor|].
  rewrite compare_positive. destruct (num_ltb (key x) (key y)) eqn:Hlt.
  - constructor; [exact IH|]. apply sortInsert_HdRel; [exact Hhd|].
    now apply smaller_key_goes_after.
  - constructor; [now constructor|]. constructor. exact Hlt.
Qed.

Lemma Array_sort_Sorted (l : list A) : Sorted inOrder (Array_sort compare l).
Proof.
  induction l as [|x l IH]; simpl; [constructor|]. now apply sortInsert_Sorted.
Qed.

Lemma sortInsert_Permutation (x : A) (l : list A) :
  Permutation (x :: l) (sortInsert compare x l).
Proof.
  induction l as [|y l IH]; cbn [sortInsert]; [reflexivity|].
  destruct (num_ltb (Num 0) (compare x y)); [|reflexivity].
  rewrite perm_swap. now constructor.
Qed.

Lemma Array_sort_Permutation (l : list A) : Permutation l (Array_sort compare l).
Proof.
  induction l as [|x l IH]; simpl; [constructor|].
  rewrite <- sortInsert_Permutation. now constructor.
Qed.

End SortByKey.

Lemma mostStaleFirst_permutation (items : list ReviewEntry) :
  Permutation items (mostStaleFirst items).
Proof. apply (Array_sort_Permutation daysSinceReview). Qed.

Lemma sorted_numbers (items : list ReviewEntry) :
  Sorted (fun a b => num_ltb (daysSinceReview a) (daysSinceReview b) = false) items ->
  daysAreNumbers items -> MostStaleFirst items.
Proof.
  unfold MostStaleFirst.
  induction 1 as [|a l Hsorted IH Hhd]; intros Hnum; [exists []; split; constructor|].
  inversion Hnum as [|? ? [d Ha] Hrest]; subst.
  destruct (IH Hrest) as (days & Hmap & Hdays).
  exists (d :: days). split; [cbn [map]; now rewrite Ha, Hmap|].
  constructor; [exact Hdays|].
  destruct l as [|b l]; destruct days as [|d' days]; try discriminate; [constructor|].
  injection Hmap as Hb Hmap. inversion Hhd as [|? ? Hab]; subst.
  rewrite Ha, Hb in Hab. apply Z.ltb_ge in Hab.
  inversion Hdays as [|? ? _ Hall]; subst.
  constructor; [lia|]. eapply Forall_impl; [|exact Hall]. intros z Hz. lia.
Qed.

Lemma mostStaleFirst_sorted (items : list ReviewEntry) :
  daysAreNumbers items -> MostStaleFirst (mostStaleFirst items).
Proof.
  intros Hnum. apply sorted_numbers.
  - apply (Array_sort_Sorted daysSinceReview).
  - unfold daysAreNumbers.
    eapply Permutation_Forall; [apply mostStaleFirst_permutation|exact Hnum].
Qed.

Lemma entries_daysAreNumbers (rationales : list Rationale) (currentDate : Date) :
  isValidDate currentDate = true ->
  Forall (fun r => isValidDate (lastReviewedAt r) = true) rationales ->
  daysAreNumbers
    (map (fun r => {| entry_title := title r;
                      entry_status := status r;
                      daysSinceReview := getDaysSinceReview (lastReviewedAt r) currentDate |})
         (filter needsReview rationales)).
Proof.
  intros Hnow Hreviewed. apply Forall_map, Forall_forall. intros r Hin.
  apply filter_In in Hin as [Hin _]. rewrite Forall_forall in Hreviewed.
  specialize (Hreviewed r Hin). cbn [daysSinceReview].
  destruct currentDate as [[tn|]]; [|discriminate Hnow].
  destruct (lastReviewedAt r) as [[tl|]]; [|discriminate Hreviewed].
  eexists. reflexivity.
Qed.

(** C3, as stated, fails: a Review Due rationale 45 days old listed
    before a Stale one 120 days old stays before it in
    [rationalesNeedingReview]. *)
Lemma summary_field_unsorted :
  let summary := generateReviewSummary (H:=utcHost) [exampleDue; exampleStale]
                   "CML-2024-00847" exampleNow in
  map daysSinceReview (rationalesNeedingReview summary) = [Num 45; Num 120] /\
  ~ MostStaleFirst (rationalesNeedingReview summary).
Proof.
  cbv zeta. split; [reflexivity|].
  intros (days & Hmap & Hsorted).
  change (map daysSinceReview _) with [Num 45; Num 120] in Hmap.
  destruct days as [|a [|b [|c days]]]; try discriminate Hmap.
  injection Hmap as <- <-.
  inversion Hsorted as [|? ? _ Hall]; subst. inversion Hall; subst. lia.
Qed.

(** C3, amended. [rationalesNeedingReview] lists the rationales that
    need review in the order of the input list.  The order most stale
    first is that of [summaryText]: when the dates are valid and some
    rationale needs review, the entries it prints are those of
    [rationalesNeedingReview] sorted by [daysSinceReview], largest
    first. *)
Theorem summary_order `{Host} (rationales : list Rationale) (loanId : string)
  (currentDate : Date) :
  let summary := generateReviewSummary rationales loanId currentDate in
  let entries := rationalesNeedingReview summary in
  entries = map (fun r => {| entry_title := title r;
                             entry_status := status r;
                             daysSinceReview :=
                               getDaysSinceReview (lastReviewedAt r) currentDate |})
                (filter needsReview rationales) /\
  (isValidDate currentDate = true ->
   Forall (fun r => isValidDate (lastReviewedAt r) = true) rationales ->
   MostStaleFirst (mostStaleFirst entries) /\
   Permutation entries (mostStaleFirst entries) /\
   (entries <> [] ->
    summaryText summary
    = String.concat newline
        (reviewLines loanId currentDate (mostStaleFirst entries) (List.length entries)))).
Proof.
  cbv zeta. split; [reflexivity|]. intros Hnow Hreviewed.
  split; [apply mostStaleFirst_sorted; rewrite needingReview_entries;
          now apply entries_daysAreNumbers|].
  split; [apply mostStaleFirst_permutation|].
  intros Hne. cbn [summaryText rationalesNeedingReview generateReviewSummary].
  unfold generateSummaryText.
  destruct (map _ (filter needsReview rationales)) as [|e l] eqn:Hentries.
  - now elim Hne.
  - cbn [List.length Nat.eqb]. unfold reviewLines. rewrite <- !app_assoc. reflexivity.
Qed.

Lemma summary_order_witness :
  let summary := generateReviewSummary (H:=utcHost) [exampleDue; exampleStale]
                   "CML-2024-00847" exampleNow in
  MostStaleFirst (mostStaleFirst (rationalesNeedingReview summary)) /\
  summaryText summary
  = String.concat newline
      (reviewLines (H:=utcHost) "CML-2024-00847" exampleNow
         (mostStaleFirst (rationalesNeedingReview summary)) 2).
Proof.
  cbv zeta.
  destruct (proj2 (@summary_order utcHost [exampleDue; exampleStale]
                     "CML-2024-00847" exampleNow)
              eq_refl ltac:(repeat constructor))
    as (Hsorted & _ & Htext).
  split; [exact Hsorted|]. apply Htext. discriminate.
Defined.

(** The printed order of that summary: 120 days, then 45. *)
Example summary_printed_order :
  map daysSinceReview
      (mostStaleFirst
         (rationalesNeedingReview
            (generateReviewSummary (H:=utcHost) [exampleDue; exampleStale]
               "CML-2024-00847" exampleNow)))
  = [Num 120; Num 45].
Proof. reflexivity. Qed.

(** ** Extraction *)

Lemma strlen_positive (s : string) : s <> "" -> (0 <? strlen s) = true.
Proof.
  intros Hne. apply Z.ltb_lt. destruct s; [now elim Hne|]. unfold strlen. simpl. lia.
Qed.

(** C9, as stated, fails: a single blank is a non-empty text for which
    neither extraction finds a rationale, and none is emitted. *)
Lemma mockExtractRationales_blank :
  let text := " " in
  text <> "" /\
  sectionRationales (H:=utcHost) exampleNow (extractSections text) = [] /\
  keywordRationales (H:=utcHost) exampleNow text [] = [] /\
  mockExtractRationales (H:=utcHost) exampleNow text = [].
Proof. cbv zeta. split; [discriminate|]. repeat split. Qed.

(** C9, amended. [mockExtractRationales] of the empty string is empty.
    For a text on which neither the section-based extraction nor the
    keyword fallback produced a rationale, it emits exactly one rationale,
    titled "Approval Rationale", when the text has a character that is
    not white space, and none when it has not; white space is what
    [trim] strips, the no-break space included. *)
Theorem mockExtractRationales_generic `{Host} (now : Date) (text : string) :
  mockExtractRationales now "" = [] /\
  (sectionRationales now (extractSections text) = [] ->
   keywordRationales now text [] = [] ->
   (trim text <> "" ->
    exists rationale,
      mockExtractRationales now text = [rationale] /\
      pending_title rationale = "Approval Rationale") /\
   (trim text = "" -> mockExtractRationales now text = [])).
Proof.
  split; [reflexivity|]. intros Hsections Hkeywords.
  unfold mockExtractRationales. rewrite Hsections. cbn [List.length Nat.eqb].
  rewrite Hkeywords. cbn [List.length Nat.eqb andb].
  split; intros Htrim.
  - rewrite (strlen_positive _ Htrim). unfold pushRationale. cbn [app].
    eexists. split; reflexivity.
  - now rewrite Htrim.
Qed.

Lemma mockExtractRationales_generic_witness :
  exists rationale,
    mockExtractRationales (H:=utcHost) exampleNow genericText = [rationale] /\
    pending_title rationale = "Approval Rationale".
Proof.
  apply (proj2 (@mockExtractRationales_generic utcHost exampleNow genericText)).
  - reflexivity.
  - reflexivity.
  - discriminate.
Defined.

(** A text of no-break spaces is white space only. *)
Example mockExtractRationales_no_break_space :
  let text := String (ascii_of_N 160) (String (ascii_of_N 160) "") in
  trim text = "" /\ mockExtractRationales (H:=utcHost) exampleNow text = [].
Proof. split; reflexivity. Qed.

(** The keyword fallback on the text of the unit test. *)
Example mockExtractRationales_keyword :
  map pending_title
      (mockExtractRationales (H:=utcHost) exampleNow
         "The borrower has shown strong cash flow generation over the past 3 years. This demonstrates financial stability.")
  = ["Cash Flow Analysis"].
Proof. reflexivity. Qed.

(** ** The reducer: confirming a pending rationale *)

Lemma confirm_pending_is_filter (clock : nat -> Date) (state : LoanCockpitState)
  (pending : PendingRationale) :
  pendingRationales (loanCockpitReducer clock state (CONFIRM_RATIONALE pending))
  = filter (fun p => negb (sameId pending p)) (pendingRationales state).
Proof. reflexivity. Qed.

Lemma confirm_rationales_is_append (clock : nat -> Date) (state : LoanCockpitState)
  (pending : PendingRationale) :
  rationales (loanCockpitReducer clock state (CONFIRM_RATIONALE pending))
  = (rationales state ++ [confirmPendingRationale pending (clock 0%nat)])%list.
Proof. reflexivity. Qed.

Lemma filter_keeps_all {A : Type} (f : A -> bool) (l : list A) :
  (forall x, In x l -> f x = true) -> filter f l = l.
Proof.
  induction l as [|x l IH]; simpl; intros Hall; [reflexivity|].
  rewrite (Hall x (or_introl eq_refl)). f_equal. apply IH. intros y Hy.
  apply Hall. now right.
Qed.

(** C2, as stated, fails: with two pending rationales, confirming one
    leaves a single one outstanding, and [showConfirmation] is [true]. *)
Lemma confirm_showConfirmation_two_pending :
  let state := exampleState [examplePending "rat-a"; examplePending "rat-b"] in
  let state' := loanCockpitReducer exampleClock state
                  (CONFIRM_RATIONALE (examplePending "rat-a")) in
  List.length (pendingRationales state') = 1%nat /\
  showConfirmation state' = true /\
  showConfirmation state' <> (1 <? List.length (pendingRationales state'))%nat.
Proof. cbv zeta. split; [reflexivity|]. split; [reflexivity|]. discriminate. Qed.

(** C2, amended. After CONFIRM_RATIONALE, [showConfirmation] is (pending
    count before the transition > 1).  When exactly one pending rationale
    has the id confirmed, that is (remaining pending count > 0): the
    confirmation surface closes once no pending rationale remains. *)
Theorem confirm_showConfirmation (clock : nat -> Date) (state : LoanCockpitState)
  (pending : PendingRationale) :
  let state' := loanCockpitReducer clock state (CONFIRM_RATIONALE pending) in
  showConfirmation state' = (1 <? List.length (pendingRationales state))%nat /\
  (List.length (filter (sameId pending) (pendingRationales state)) = 1%nat ->
   List.length (pendingRationales state')
   = (List.length (pendingRationales state) - 1)%nat /\
   showConfirmation state' = (0 <? List.length (pendingRationales state'))%nat).
Proof.
  cbv zeta. split; [reflexivity|]. intros Honce.
  rewrite confirm_pending_is_filter.
  pose proof (filter_length (sameId pending) (pendingRationales state)) as Hsplit.
  rewrite Honce in Hsplit. cbn [showConfirmation loanCockpitReducer].
  split; [lia|].
  destruct (Nat.ltb_spec 1 (List.length (pendingRationales state)));
    destruct (Nat.ltb_spec 0
                (List.length (filter (fun p => negb (sameId pending p))
                                     (pendingRationales state))));
    try reflexivity; lia.
Qed.

Lemma confirm_showConfirmation_witness :
  let state := exampleState [examplePending "rat-a"; examplePending "rat-b"] in
  let state' := loanCockpitReducer exampleClock state
                  (CONFIRM_RATIONALE (examplePending "rat-a")) in
  List.length (pendingRationales state') = 1%nat /\
  showConfirmation state' = (0 <? List.length (pendingRationales state'))%nat.
Proof.
  apply (proj2 (confirm_showConfirmation exampleClock
                  (exampleState [examplePending "rat-a"; examplePending "rat-b"])
                  (examplePending "rat-a"))).
  reflexivity.
Defined.

(** C10. CONFIRM_RATIONALE appends exactly one rationale, the
    confirmation of the payload, to [rationales], whether or not the
    payload's id occurs in [pendingRationales]; when it does not,
    [pendingRationales] is unchanged.  Dispatching it twice with one
    payload leaves two rationales with the same id. *)
Theorem confirm_appends_unconditionally (clock clock' : nat -> Date)
  (state : LoanCockpitState) (pending : PendingRationale) :
  let state' := loanCockpitReducer clock state (CONFIRM_RATIONALE pending) in
  let state'' := loanCockpitReducer clock' state' (CONFIRM_RATIONALE pending) in
  let first := confirmPendingRationale pending (clock 0%nat) in
  let second := confirmPendingRationale pending (clock' 0%nat) in
  rationales state' = (rationales state ++ [first])%list /\
  (~ In (pending_id pending) (map pending_id (pendingRationales state)) ->
   pendingRationales state' = pendingRationales state) /\
  rationales state'' = (rationales state ++ [first; second])%list /\
  id first = pending_id pending /\
  id second = pending_id pending.
Proof.
  cbv zeta. split; [reflexivity|]. split; [|split; [|split; reflexivity]].
  - intros Habsent. rewrite confirm_pending_is_filter. apply filter_keeps_all.
    intros p Hin. unfold sameId. apply negb_true_iff, String.eqb_neq.
    intros Heq. apply Habsent. rewrite <- Heq. now apply in_map.
  - rewrite !confirm_rationales_is_append, <- app_assoc. reflexivity.
Qed.

Lemma confirm_appends_unconditionally_witness :
  let state := exampleState [examplePending "rat-b"] in
  let state' := loanCockpitReducer exampleClock state
                  (CONFIRM_RATIONALE (examplePending "rat-a")) in
  pendingRationales state' = pendingRationales state.
Proof.
  apply (proj1 (proj2 (confirm_appends_unconditionally exampleClock exampleClock
                         (exampleState [examplePending "rat-b"])
                         (examplePending "rat-a")))).
  simpl. intros [Heq|[]]. discriminate Heq.
Defined.

(** ** The persisted snapshot *)

Section MapThrowing.

Context {A B : Type} (f : A -> option B) (g : B -> A) (valid : A -> bool).

Hypothesis roundtrip :
  forall x, valid x = true -> exists y, f x = Some y /\ g y = x.

Lemma mapThrowing_roundtrip (xs : list A) :
  forallb valid xs = true ->
  exists ys, mapThrowing f xs = Some ys /\ map g ys = xs.
Proof.
  induction xs as [|x xs IH]; simpl; intros Hall.
  - exists []. split; reflexivity.
  - apply andb_true_iff in Hall as [Hx Hxs].
    destruct (roundtrip x Hx) as (y & Hy & Hgy).
    destruct (IH Hxs) as (ys & Hys & Hgys).
    exists (y :: ys). rewrite Hy, Hys. simpl. now rewrite Hgy, Hgys.
Qed.

End MapThrowing.

Lemma serializeSignal_roundtrip (s : ContextualSignal) :
  signalDatesValid s = true ->
  exists snap, serializeSignal s = Some snap /\ deserializeSignal snap = s.
Proof.
  unfold signalDatesValid, serializeSignal. intros Hvalid.
  destruct (toISOString_valid _ Hvalid) as (iso & Hiso).
  rewrite Hiso. cbn [bind]. eexists. split; [reflexivity|].
  unfold deserializeSignal. cbn. rewrite (newDateOfString_toISOString _ _ Hiso).
  now destruct s.
Qed.

Lemma serializeRationale_roundtrip (r : Rationale) :
  rationaleDatesValid r = true ->
  exists snap, serializeRationale r = Some snap /\ deserializeRationale snap = r.
Proof.
  unfold rationaleDatesValid, serializeRationale. intros Hvalid.
  apply andb_true_iff in Hvalid as [Hvalid Hsignals].
  apply andb_true_iff in Hvalid as [Hcreated Hreviewed].
  destruct (toISOString_valid _ Hcreated) as (created & Hc).
  destruct (toISOString_valid _ Hreviewed) as (reviewed & Hr).
  destruct (mapThrowing_roundtrip _ _ _ serializeSignal_roundtrip _ Hsignals)
    as (signals & Hs & Hback).
  rewrite Hc, Hr, Hs. cbn [bind]. eexists. split; [reflexivity|].
  unfold deserializeRationale. cbn.
  rewrite (newDateOfString_toISOString _ _ Hc), (newDateOfString_toISOString _ _ Hr), Hback.
  now destruct r.
Qed.

Lemma serializePending_roundtrip (p : PendingRationale) :
  isValidDate (extractedAt p) = true ->
  exists snap, serializePending p = Some snap /\ deserializePending snap = p.
Proof.
  unfold serializePending. intros Hvalid.
  destruct (toISOString_valid _ Hvalid) as (iso & Hiso).
  rewrite Hiso. cbn [bind]. eexists. split; [reflexivity|].
  unfold deserializePending. cbn. rewrite (newDateOfString_toISOString _ _ Hiso).
  now destruct p.
Qed.

Lemma serializeLoan_roundtrip (l : LoanInfo) :
  isValidDate (approvalDate l) = true ->
  exists snap, serializeLoan l = Some snap /\ deserializeLoan snap = l.
Proof.
  unfold serializeLoan. intros Hvalid.
  destruct (toISOString_valid _ Hvalid) as (iso & Hiso).
  rewrite Hiso. cbn [bind]. eexists. split; [reflexivity|].
  unfold deserializeLoan. cbn. rewrite (newDateOfString_toISOString _ _ Hiso).
  now destruct l.
Qed.

(** C5. For a state whose Date fields are all valid dates,
    [serializeState] returns a snapshot and [deserializeState] of that
    snapshot is the state: the loan and its [approvalDate], every
    rationale with [createdAt], [lastReviewedAt] and the [updatedAt] of
    its signals, every pending rationale with [extractedAt], each date to
    the millisecond, the lists element by element, and [isExtracting],
    [showConfirmation] and [dataSource]. *)
Theorem deserialize_serialize (state : LoanCockpitState)
  (Hvalid : stateDatesValid state = true) :
  exists snapshot,
    serializeState state = Some snapshot /\
    deserializeState snapshot = state.
Proof.
  unfold stateDatesValid in Hvalid.
  apply andb_true_iff in Hvalid as [Hvalid Hpending].
  apply andb_true_iff in Hvalid as [Hloan Hrationales].
  destruct (mapThrowing_roundtrip _ _ _ serializeRationale_roundtrip _ Hrationales)
    as (rs & Hrs & Hrs_back).
  destruct (mapThrowing_roundtrip _ _ (fun p => isValidDate (extractedAt p))
              serializePending_roundtrip _ Hpending) as (ps & Hps & Hps_back).
  assert (Hl : exists l', match loan state with
                          | Some l => l' <- serializeLoan l ;; Some (Some l')
                          | None => Some None
                          end = Some l'
                          /\ option_map deserializeLoan l' = loan state).
  { destruct (loan state) as [l|]; [|exists None; split; reflexivity].
    destruct (serializeLoan_roundtrip l Hloan) as (l' & Hl' & Hback).
    exists (Some l'). rewrite Hl'. cbn. now rewrite Hback. }
  destruct Hl as (l' & Hl' & Hl_back).
  unfold serializeState. rewrite Hl', Hrs, Hps. cbn [bind].
  eexists. split; [reflexivity|].
  unfold deserializeState. cbn. rewrite Hl_back, Hrs_back, Hps_back.
  now destruct state.
Qed.

(** The demo data with one pending rationale, saved and restored. *)
Lemma deserialize_serialize_witness :
  let state := loanCockpitReducer exampleClock
                 (loanCockpitReducer exampleClock initialState LOAD_DEMO_DATA)
                 (ADD_PENDING_RATIONALES [examplePending "rat-a"]) in
  exists snapshot,
    serializeState state = Some snapshot /\
    deserializeState snapshot = state.
Proof.
  apply (deserialize_serialize
           (loanCockpitReducer exampleClock
              (loanCockpitReducer exampleClock initialState LOAD_DEMO_DATA)
              (ADD_PENDING_RATIONALES [examplePending "rat-a"]))).
  reflexivity.
Defined.

(** With an Invalid Date in the state [toISOString] throws, and there is
    no snapshot. *)
Example serializeState_invalid_date :
  serializeState
    {| loan := Some {| loan_id := "CML-2024-00847";
                       approvalDate := InvalidDate;
                       borrowerReference := "REF-ACME-2024" |};
       rationales := [];
       pendingRationales := [];
       isExtracting := false;
       showConfirmation := false;
       dataSource := DataExtracted |}
  = None.
Proof. reflexivity. Qed.

(** * Further properties *)

(** ** The calendar is monotone *)

Lemma eraDay_monotone (doe1 doe2 : Z) :
  0 <= doe1 <= doe2 -> doe2 < 146097 ->
  let part doe :=
    let yoe := (doe - doe / 1460 + doe / 36524 - doe / 146096) / 365 in
    let doy := doe - (365 * yoe + yoe / 4 - yoe / 100) in
    let mp := (5 * doy + 2) / 153 in
    let d := doy - (153 * mp + 2) / 5 + 1 in
    (12 * yoe + mp, d) in
  fst (part doe1) < fst (part doe2)
  \/ (fst (part doe1) = fst (part doe2) /\ snd (part doe1) <= snd (part doe2)).
Proof.
  intros H1 H2. cbv zeta. cbn [fst snd].
  pose proof (eraDay_bounds doe1 ltac:(lia)) as B1.
  pose proof (eraDay_bounds doe2 ltac:(lia)) as B2.
  cbv zeta in B1, B2.
  set (n1 := doe1 - doe1 / 1460 + doe1 / 36524 - doe1 / 146096) in *.
  set (n2 := doe2 - doe2 / 1460 + doe2 / 36524 - doe2 / 146096) in *.
  assert (Hn : n1 <= n2) by (subst n1 n2; Z.div_mod_to_equations; lia).
  set (yoe1 := n1 / 365) in *. set (yoe2 := n2 / 365) in *.
  assert (Hy : yoe1 <= yoe2) by (apply Z.div_le_mono; lia).
  set (doy1 := doe1 - (365 * yoe1 + yoe1 / 4 - yoe1 / 100)) in *.
  set (doy2 := doe2 - (365 * yoe2 + yoe2 / 4 - yoe2 / 100)) in *.
  set (mp1 := (5 * doy1 + 2) / 153) in *. set (mp2 := (5 * doy2 + 2) / 153) in *.
  destruct (Z.eq_dec yoe1 yoe2) as [Heq|Hne]; [|left; lia].
  assert (Hdoy : doy1 <= doy2) by (subst doy1 doy2; rewrite Heq; lia).
  assert (Hmp : mp1 <= mp2) by (apply Z.div_le_mono; lia).
  destruct (Z.eq_dec mp1 mp2) as [Heq'|Hne']; [|left; lia].
  right. split; [lia|]. rewrite Heq'. lia.
Qed.

Lemma civil_monotone (t1 t2 : Z) :
  t1 <= t2 ->
  monthNumber t1 < monthNumber t2
  \/ (monthNumber t1 = monthNumber t2 /\ DateFromTime t1 <= DateFromTime t2).
Proof.
  intros Ht. unfold monthNumber, YearFromTime, MonthFromTime, DateFromTime.
  assert (Hday : Day t1 <= Day t2) by (apply Z.div_le_mono; [reflexivity|exact Ht]).
  revert Hday. generalize (Day t1) (Day t2). clear. intros day1 day2 Hday.
  unfold civilFromDays, daysPerEra, marchEpochShift. cbn [fst snd].
  set (z1 := day1 + 719468). set (z2 := day2 + 719468).
  assert (Hz : z1 <= z2) by (subst z1 z2; lia).
  assert (Hd1 : 0 <= z1 mod 146097 < 146097) by (apply Z.mod_pos_bound; lia).
  assert (Hd2 : 0 <= z2 mod 146097 < 146097) by (apply Z.mod_pos_bound; lia).
  pose proof (Z.div_mod z1 146097 ltac:(lia)) as E1.
  pose proof (Z.div_mod z2 146097 ltac:(lia)) as E2.
  assert (Hera : z1 / 146097 <= z2 / 146097) by (apply Z.div_le_mono; lia).
  pose proof (eraDay_bounds _ Hd1) as B1. pose proof (eraDay_bounds _ Hd2) as B2.
  cbv zeta in B1, B2.
  set (era1 := z1 / 146097) in *. set (era2 := z2 / 146097) in *.
  set (doe1 := z1 mod 146097) in *. set (doe2 := z2 mod 146097) in *.
  destruct (Z.eq_dec era1 era2) as [Heq|Hne].
  - assert (Hdoe : doe1 <= doe2) by lia.
    pose proof (eraDay_monotone doe1 doe2 ltac:(lia) ltac:(lia)) as Hm.
    cbv zeta in Hm. cbn [fst snd] in Hm. rewrite <- Heq.
    set (yoe1 := (doe1 - doe1 / 1460 + doe1 / 36524 - doe1 / 146096) / 365) in *.
    set (yoe2 := (doe2 - doe2 / 1460 + doe2 / 36524 - doe2 / 146096) / 365) in *.
    set (doy1 := doe1 - (365 * yoe1 + yoe1 / 4 - yoe1 / 100)) in *.
    set (doy2 := doe2 - (365 * yoe2 + yoe2 / 4 - yoe2 / 100)) in *.
    set (mp1 := (5 * doy1 + 2) / 153) in *. set (mp2 := (5 * doy2 + 2) / 153) in *.
    destruct (mp1 <? 10) eqn:L1; destruct (mp2 <? 10) eqn:L2;
      repeat match goal with
             | |- context [?a <=? 2] => destruct (Z.leb_spec a 2)
             end;
      try apply Z.ltb_lt in L1; try apply Z.ltb_ge in L1;
      try apply Z.ltb_lt in L2; try apply Z.ltb_ge in L2; lia.
  - left.
    set (yoe1 := (doe1 - doe1 / 1460 + doe1 / 36524 - doe1 / 146096) / 365) in *.
    set (yoe2 := (doe2 - doe2 / 1460 + doe2 / 36524 - doe2 / 146096) / 365) in *.
    set (doy1 := doe1 - (365 * yoe1 + yoe1 / 4 - yoe1 / 100)) in *.
    set (doy2 := doe2 - (365 * yoe2 + yoe2 / 4 - yoe2 / 100)) in *.
    set (mp1 := (5 * doy1 + 2) / 153) in *. set (mp2 := (5 * doy2 + 2) / 153) in *.
    destruct (mp1 <? 10) eqn:L1; destruct (mp2 <? 10) eqn:L2;
      repeat match goal with
             | |- context [?a <=? 2] => destruct (Z.leb_spec a 2)
             end;
      try apply Z.ltb_lt in L1; try apply Z.ltb_ge in L1;
      try apply Z.ltb_lt in L2; try apply Z.ltb_ge in L2; lia.
Qed.

(** ** More on staleness *)

Lemma statusRank_of_days (tl tn : Z) :
  - maxTimeValue <= tl <= maxTimeValue -> - maxTimeValue <= tn <= maxTimeValue ->
  statusRank (calculateStatus (dateOfMs tl) (dateOfMs tn))
  = let days := (tn - tl) / 86400000 in
    if days <=? 30 then 0 else if days <=? 90 then 1 else 2.
Proof.
  intros Hl Hn. rewrite (calculateStatus_valid tl tn Hl Hn).
  cbv zeta. generalize ((tn - tl) / 86400000). intros days.
  destruct (days <=? 30); [reflexivity|]. now destruct (days <=? 90).
Qed.

(** X1. Between valid dates, as time passes a rationale never gets
    fresher, and a later review never makes it staler; between dates at
    most 2^53 ms apart, a whole number of days later the day count has
    grown by that number. *)
Theorem calculateStatus_monotone (tl tl' tn tn' : Z) (k : Z)
  (Hl : isValidDate (dateOfMs tl) = true) (Hl' : isValidDate (dateOfMs tl') = true)
  (Hn : isValidDate (dateOfMs tn) = true) (Hn' : isValidDate (dateOfMs tn') = true) :
  (tn <= tn' ->
   statusRank (calculateStatus (dateOfMs tl) (dateOfMs tn))
   <= statusRank (calculateStatus (dateOfMs tl) (dateOfMs tn'))) /\
  (tl <= tl' ->
   statusRank (calculateStatus (dateOfMs tl') (dateOfMs tn))
   <= statusRank (calculateStatus (dateOfMs tl) (dateOfMs tn))) /\
  (Z.abs (tn - tl) <= 2 ^ 53 -> Z.abs (tn + k * 86400000 - tl) <= 2 ^ 53 ->
   getDaysSinceReview (dateOfMs tl) (dateOfMs (tn + k * 86400000))
   = num_add (getDaysSinceReview (dateOfMs tl) (dateOfMs tn)) (Num k)).
Proof.
  apply isValidDate_range in Hl, Hl', Hn, Hn'.
  split; [|split].
  - intros Hle. rewrite !statusRank_of_days by assumption. cbv zeta.
    assert (Hd : (tn - tl) / 86400000 <= (tn' - tl) / 86400000)
      by (apply Z.div_le_mono; lia).
    repeat match goal with |- context [?a <=? ?b] => destruct (Z.leb_spec a b) end; lia.
  - intros Hle. rewrite !statusRank_of_days by assumption. cbv zeta.
    assert (Hd : (tn - tl') / 86400000 <= (tn - tl) / 86400000)
      by (apply Z.div_le_mono; lia).
    repeat match goal with |- context [?a <=? ?b] => destruct (Z.leb_spec a b) end; lia.
  - intros Hspan Hspan'. rewrite !getDaysSinceReview_valid by assumption.
    cbn [num_add]. f_equal.
    replace (tn + k * 86400000 - tl) with (tn - tl + k * 86400000) by lia.
    apply Z.div_add. lia.
Qed.

Lemma calculateStatus_monotone_witness :
  statusRank (calculateStatus (dateOfMs 0) (dateOfMs 86400000))
  <= statusRank (calculateStatus (dateOfMs 0) (dateOfMs 8640000000))
  /\ getDaysSinceReview (dateOfMs 0) (dateOfMs (86400000 + 99 * 86400000))
     = num_add (getDaysSinceReview (dateOfMs 0) (dateOfMs 86400000)) (Num 99).
Proof.
  pose proof (calculateStatus_monotone 0 0 86400000 8640000000 99
                eq_refl eq_refl eq_refl eq_refl) as (Hlater & _ & Hdays).
  split; [apply Hlater; lia|apply Hdays; simpl; lia].
Defined.

(** Beyond 2^53 ms one day more can be two days more in the count. *)
Example getDaysSinceReview_two_days :
  getDaysSinceReview (dateOfMs (-4500000000000000)) (dateOfMs 4507199222399999)
  = Num 104249990 /\
  getDaysSinceReview (dateOfMs (-4500000000000000))
    (dateOfMs (4507199222399999 + 1 * 86400000))
  = Num 104249992.
Proof. split; reflexivity. Qed.

(** ** More on the approval logic age *)

Lemma calculateApprovalLogicAge_value `{Host} (ta tc : Z) :
  calculateApprovalLogicAge (dateOfMs ta) (dateOfMs tc)
  = Num (Z.max 0 (monthNumber (LocalTime tc) - monthNumber (LocalTime ta)
                  - if DateFromTime (LocalTime tc) <? DateFromTime (LocalTime ta)
                    then 1 else 0)).
Proof.
  unfold calculateApprovalLogicAge, getFullYear, getMonth, getDate, monthNumber.
  cbn [getTime dateOfMs num_sub num_mul num_add num_ltb].
  destruct (_ <? _); cbn [num_sub Math_max]; f_equal; lia.
Qed.

(** X2. When the approval date is not before the current date in local
    time, the approval logic age is 0. *)
Theorem calculateApprovalLogicAge_ahead `{Host} (ta tc : Z)
  (Hahead : LocalTime tc <= LocalTime ta) :
  calculateApprovalLogicAge (dateOfMs ta) (dateOfMs tc) = Num 0.
Proof.
  rewrite calculateApprovalLogicAge_value. f_equal.
  destruct (civil_monotone _ _ Hahead) as [Hlt|[Heq Hday]].
  - destruct (_ <? _); lia.
  - destruct (Z.ltb_spec (DateFromTime (LocalTime tc)) (DateFromTime (LocalTime ta))); lia.
Qed.

Lemma calculateApprovalLogicAge_ahead_witness :
  calculateApprovalLogicAge (H:=utcHost)
    (dateOfMs 1750000000000) (dateOfMs 1735387200000) = Num 0.
Proof.
  apply (@calculateApprovalLogicAge_ahead utcHost 1750000000000 1735387200000).
  unfold LocalTime. simpl. lia.
Defined.

(** X3. The approval logic age never decreases as the current date moves
    on in local time, and never increases as the approval date does. *)
Theorem calculateApprovalLogicAge_monotone `{Host} (ta ta' tc tc' : Z) :
  (LocalTime tc <= LocalTime tc' ->
   exists a a',
     calculateApprovalLogicAge (dateOfMs ta) (dateOfMs tc) = Num a /\
     calculateApprovalLogicAge (dateOfMs ta) (dateOfMs tc') = Num a' /\
     a <= a') /\
  (LocalTime ta <= LocalTime ta' ->
   exists a a',
     calculateApprovalLogicAge (dateOfMs ta) (dateOfMs tc) = Num a /\
     calculateApprovalLogicAge (dateOfMs ta') (dateOfMs tc) = Num a' /\
     a' <= a).
Proof.
  split; intros Hle; rewrite !calculateApprovalLogicAge_value;
    eexists _, _; (split; [reflexivity|split; [reflexivity|]]);
    destruct (civil_monotone _ _ Hle) as [Hlt|[Heq Hday]];
    repeat match goal with |- context [?a <? ?b] => destruct (Z.ltb_spec a b) end; lia.
Qed.

Lemma calculateApprovalLogicAge_monotone_witness :
  exists a a',
    calculateApprovalLogicAge (H:=utcHost) (dateOfMs 1710460800000) (dateOfMs 1735387200000)
    = Num a /\
    calculateApprovalLogicAge (H:=utcHost) (dateOfMs 1710460800000) (dateOfMs 1750000000000)
    = Num a' /\
    a <= a'.
Proof.
  apply (proj1 (@calculateApprovalLogicAge_monotone utcHost
                  1710460800000 1710460800000 1735387200000 1750000000000)).
  unfold LocalTime. simpl. lia.
Defined.

(** ** Rejecting *)

Lemma reject_In (pendingList : list PendingRationale) (rationaleId : string)
  (p : PendingRationale) :
  In p (rejectPendingRationale pendingList rationaleId)
  <-> In p pendingList /\ pending_id p <> rationaleId.
Proof.
  unfold rejectPendingRationale. rewrite filter_In, negb_true_iff, String.eqb_neq.
  reflexivity.
Qed.

Lemma filter_length_once {A : Type} (f : A -> bool) (l : list A) :
  List.length (filter f l) = 1%nat ->
  List.length (filter (fun x => negb (f x)) l) = (List.length l - 1)%nat.
Proof. intros Honce. pose proof (filter_length f l). lia. Qed.

Lemma NoDup_count_once (ids : list string) (x : string) :
  NoDup ids -> In x ids ->
  List.length (filter (fun y => String.eqb y x) ids) = 1%nat.
Proof.
  induction 1 as [|y ids Hnotin Hnodup IH]; intros Hin; [contradiction|].
  simpl. destruct (String.eqb_spec y x) as [->|Hne].
  - simpl. f_equal. clear IH Hin.
    induction ids as [|z ids IH]; [reflexivity|]. simpl.
    destruct (String.eqb_spec z x) as [->|_].
    + elim Hnotin. now left.
    + apply IH; [intros Hin; apply Hnotin; now right|now inversion Hnodup].
  - apply IH. destruct Hin as [Heq|Hin]; [contradiction|exact Hin].
Qed.

Lemma filter_map_swap {A B : Type} (g : A -> B) (f : B -> bool) (l : list A) :
  filter f (map g l) = map g (filter (fun x => f (g x)) l).
Proof.
  induction l as [|x l IH]; simpl; [reflexivity|].
  destruct (f (g x)); simpl; now rewrite IH.
Qed.

Lemma reject_absent (pendingList : list PendingRationale) (rationaleId : string) :
  ~ In rationaleId (map pending_id pendingList) ->
  rejectPendingRationale pendingList rationaleId = pendingList.
Proof.
  intros Habsent. apply filter_keeps_all. intros p Hin.
  apply negb_true_iff, String.eqb_neq. intros Heq. apply Habsent.
  rewrite <- Heq. now apply in_map.
Qed.

Lemma reject_around (before after : list PendingRationale) (p : PendingRationale)
  (rationaleId : string) :
  rejectPendingRationale (before ++ p :: after) rationaleId
  = (rejectPendingRationale before rationaleId
     ++ (if String.eqb (pending_id p) rationaleId then [] else [p])
     ++ rejectPendingRationale after rationaleId)%list.
Proof.
  unfold rejectPendingRationale. rewrite filter_app. cbn [filter].
  now destruct (String.eqb (pending_id p) rationaleId).
Qed.

(** X4. [rejectPendingRationale] removes every pending rationale with the
    given id and keeps the others, in their order: around any rationale
    of the list, what was before it stays before and what was after it
    stays after.  It returns the list unchanged when the id is absent,
    the list without the one rationale that has the id when there is one
    only, and a list one element shorter when the ids are distinct and
    the id is present. *)
Theorem rejectPendingRationale_spec (pendingList : list PendingRationale)
  (rationaleId : string) :
  let result := rejectPendingRationale pendingList rationaleId in
  ~ In rationaleId (map pending_id result) /\
  (forall p, In p result <-> In p pendingList /\ pending_id p <> rationaleId) /\
  (exists removed, Permutation pendingList (result ++ removed)
                   /\ Forall (fun p => pending_id p = rationaleId) removed) /\
  (~ In rationaleId (map pending_id pendingList) -> result = pendingList) /\
  (NoDup (map pending_id pendingList) -> In rationaleId (map pending_id pendingList) ->
   List.length result = (List.length pendingList - 1)%nat) /\
  (forall before p after, pendingList = (before ++ p :: after)%list ->
     result = (rejectPendingRationale before rationaleId
               ++ (if String.eqb (pending_id p) rationaleId then [] else [p])
               ++ rejectPendingRationale after rationaleId)%list) /\
  (forall before p after, pendingList = (before ++ p :: after)%list ->
     pending_id p = rationaleId ->
     ~ In rationaleId (map pending_id before) ->
     ~ In rationaleId (map pending_id after) ->
     result = (before ++ after)%list).
Proof.
  cbv zeta. split; [|split; [|split; [|split; [|split; [|split]]]]].
  - intros Hin. apply in_map_iff in Hin as (p & Hid & Hp).
    apply reject_In in Hp as [_ Hne]. contradiction.
  - intros p. apply reject_In.
  - exists (filter (fun p => String.eqb (pending_id p) rationaleId) pendingList). split.
    + unfold rejectPendingRationale. clear. induction pendingList as [|p l IH]; simpl.
      * constructor.
      * destruct (String.eqb (pending_id p) rationaleId); simpl.
        -- rewrite IH at 1. apply Permutation_middle.
        -- now constructor.
    + apply Forall_forall. intros p Hp. apply filter_In in Hp as [_ Heq].
      now apply String.eqb_eq.
  - apply reject_absent.
  - intros Hnodup Hin. unfold rejectPendingRationale.
    rewrite <- (length_map pending_id (filter _ _)), <- (length_map pending_id pendingList).
    rewrite <- (filter_map_swap pending_id (fun y => negb (String.eqb y rationaleId))).
    apply (filter_length_once (fun y => String.eqb y rationaleId)).
    now apply NoDup_count_once.
  - intros before p after ->. apply reject_around.
  - intros before p after -> Hid Hbefore Hafter. rewrite reject_around.
    rewrite (reject_absent before), (reject_absent after) by assumption.
    apply String.eqb_eq in Hid. now rewrite Hid.
Qed.

Lemma rejectPendingRationale_spec_witness :
  rejectPendingRationale
    [examplePending "rat-a"; examplePending "rat-b"; examplePending "rat-c"] "rat-b"
  = [examplePending "rat-a"; examplePending "rat-c"].
Proof.
  apply (proj2 (proj2 (proj2 (proj2 (proj2 (proj2
           (rejectPendingRationale_spec
              [examplePending "rat-a"; examplePending "rat-b"; examplePending "rat-c"]
              "rat-b"))))))
           [examplePending "rat-a"] (examplePending "rat-b") [examplePending "rat-c"]).
  - reflexivity.
  - reflexivity.
  - simpl. intuition discriminate.
  - simpl. intuition discriminate.
Defined.

(** X5. Rejecting the same id twice is rejecting it once, and two
    rejections give the same list in either order. *)
Theorem rejectPendingRationale_compose (pendingList : list PendingRationale)
  (a b : string) :
  rejectPendingRationale (rejectPendingRationale pendingList a) a
  = rejectPendingRationale pendingList a /\
  rejectPendingRationale (rejectPendingRationale pendingList a) b
  = rejectPendingRationale (rejectPendingRationale pendingList b) a.
Proof.
  unfold rejectPendingRationale. split.
  - induction pendingList as [|p l IH]; simpl; [reflexivity|].
    destruct (String.eqb (pending_id p) a) eqn:Ha; simpl; [exact IH|].
    rewrite Ha. simpl. now rewrite IH.
  - induction pendingList as [|p l IH]; simpl; [reflexivity|].
    destruct (String.eqb (pending_id p) a) eqn:Ha;
      destruct (String.eqb (pending_id p) b) eqn:Hb; simpl;
      rewrite ?Ha, ?Hb; simpl; now rewrite IH.
Qed.

(** ** The reducer: rejecting, confirming all, marking reviewed *)

(** X6. REJECT_RATIONALE leaves the pending list that
    [rejectPendingRationale] returns and touches neither the loan nor the
    confirmed rationales nor the data source; when exactly one pending
    rationale has the id, [showConfirmation] is (remaining pending
    count > 0). *)
Theorem reject_transition (clock : nat -> Date) (state : LoanCockpitState)
  (rationaleId : string) :
  let state' := loanCockpitReducer clock state (REJECT_RATIONALE rationaleId) in
  pendingRationales state'
  = rejectPendingRationale (pendingRationales state) rationaleId /\
  rationales state' = rationales state /\
  loan state' = loan state /\
  dataSource state' = dataSource state /\
  isExtracting state' = isExtracting state /\
  (List.length (filter (fun p => String.eqb (pending_id p) rationaleId)
                       (pendingRationales state)) = 1%nat ->
   showConfirmation state' = (0 <? List.length (pendingRationales state'))%nat).
Proof.
  cbv zeta. repeat split. intros Honce.
  cbn [showConfirmation pendingRationales loanCockpitReducer].
  pose proof (filter_length (fun p => String.eqb (pending_id p) rationaleId)
                (pendingRationales state)) as Hsplit.
  rewrite Honce in Hsplit.
  destruct (Nat.ltb_spec 1 (List.length (pendingRationales state)));
    destruct (Nat.ltb_spec 0
                (List.length (filter (fun p => negb (String.eqb (pending_id p) rationaleId))
                                     (pendingRationales state))));
    try reflexivity; lia.
Qed.

Lemma reject_transition_witness :
  let state' := loanCockpitReducer exampleClock
                  (exampleState [examplePending "rat-a"])
                  (REJECT_RATIONALE "rat-a") in
  showConfirmation state' = (0 <? List.length (pendingRationales state'))%nat.
Proof.
  apply (proj2 (proj2 (proj2 (proj2 (proj2
           (reject_transition exampleClock (exampleState [examplePending "rat-a"])
              "rat-a")))))).
  reflexivity.
Defined.

Lemma confirm_head (clock : nat -> Date) (state : LoanCockpitState)
  (p : PendingRationale) (ps : list PendingRationale) :
  pendingRationales state = p :: ps ->
  ~ In (pending_id p) (map pending_id ps) ->
  loanCockpitReducer clock state (CONFIRM_RATIONALE p)
  = {| loan := loan state;
       rationales := (rationales state ++ [confirmPendingRationale p (clock 0%nat)])%list;
       pendingRationales := ps;
       isExtracting := isExtracting state;
       showConfirmation := (0 <? List.length ps)%nat;
       dataSource := dataSource state |}.
Proof.
  intros Hpending Hfresh. cbn [loanCockpitReducer]. rewrite Hpending.
  cbn [filter]. rewrite String.eqb_refl. cbn [negb List.length].
  f_equal. apply filter_keeps_all. intros q Hq.
  apply negb_true_iff, String.eqb_neq. intros Heq. apply Hfresh.
  rewrite <- Heq. now apply in_map.
Qed.

Lemma confirm_each (clock : nat -> Date) (ps : list PendingRationale) :
  forall state,
    pendingRationales state = ps -> ps <> [] -> NoDup (map pending_id ps) ->
    dispatchAll clock state (map CONFIRM_RATIONALE ps)
    = loanCockpitReducer clock state CONFIRM_ALL_RATIONALES.
Proof.
  induction ps as [|p ps IH]; intros state Hpending Hne Hnodup; [now elim Hne|].
  inversion Hnodup as [|x xs Hfresh Hnodup']; subst.
  unfold dispatchAll. cbn [map fold_left].
  rewrite (confirm_head clock state p ps Hpending Hfresh).
  fold (dispatchAll clock). destruct ps as [|q ps].
  - cbn [map dispatchAll fold_left loanCockpitReducer]. rewrite Hpending. reflexivity.
  - unfold dispatchAll in IH. rewrite IH; [|reflexivity|discriminate|exact Hnodup'].
    cbn [loanCockpitReducer rationales pendingRationales loan isExtracting dataSource].
    rewrite Hpending. cbn [map]. rewrite <- app_assoc. reflexivity.
Qed.

(** X7. CONFIRM_ALL_RATIONALES appends the confirmations that
    [confirmAllPendingRationales] returns, in order, and leaves nothing
    pending; when the pending ids are distinct and some rationale is
    pending, it ends in the same state as confirming the pending
    rationales one by one. *)
Theorem confirm_all_transition (clock : nat -> Date) (state : LoanCockpitState) :
  let state' := loanCockpitReducer clock state CONFIRM_ALL_RATIONALES in
  rationales state'
  = (rationales state
     ++ confirmAllPendingRationales (pendingRationales state) (clock 0%nat))%list /\
  map id (rationales state')
  = (map id (rationales state) ++ map pending_id (pendingRationales state))%list /\
  pendingRationales state' = [] /\
  showConfirmation state' = false /\
  (pendingRationales state <> [] ->
   NoDup (map pending_id (pendingRationales state)) ->
   dispatchAll clock state (map CONFIRM_RATIONALE (pendingRationales state)) = state').
Proof.
  cbv zeta. split; [reflexivity|]. split; [|split; [reflexivity|split; [reflexivity|]]].
  - cbn [rationales loanCockpitReducer]. rewrite map_app, map_map. reflexivity.
  - intros Hne Hnodup. now apply confirm_each.
Qed.

Lemma confirm_all_transition_witness :
  let state := exampleState [examplePending "rat-a"; examplePending "rat-b"] in
  dispatchAll exampleClock state (map CONFIRM_RATIONALE (pendingRationales state))
  = loanCockpitReducer exampleClock state CONFIRM_ALL_RATIONALES.
Proof.
  apply (proj2 (proj2 (proj2 (proj2
           (confirm_all_transition exampleClock
              (exampleState [examplePending "rat-a"; examplePending "rat-b"])))))).
  - discriminate.
  - repeat constructor; simpl; intuition discriminate.
Defined.

Lemma mark_reviewed_rationales (clock : nat -> Date) (state : LoanCockpitState)
  (rationaleId : string) :
  rationales (loanCockpitReducer clock state (MARK_REVIEWED rationaleId))
  = map (fun r => if String.eqb (id r) rationaleId
                  then markRationaleAsReviewed r (clock 0%nat) else r)
        (rationales state).
Proof. reflexivity. Qed.

(** X8. MARK_REVIEWED applies [markRationaleAsReviewed] to the rationales
    with the given id and to no other: every position keeps its id, a
    rationale with another id is unchanged, and when no rationale has the
    id the state is unchanged. *)
Theorem mark_reviewed_transition (clock : nat -> Date) (state : LoanCockpitState)
  (rationaleId : string) :
  let state' := loanCockpitReducer clock state (MARK_REVIEWED rationaleId) in
  map id (rationales state') = map id (rationales state) /\
  (forall k r, nth_error (rationales state) k = Some r ->
     nth_error (rationales state') k
     = Some (if String.eqb (id r) rationaleId
             then markRationaleAsReviewed r (clock 0%nat) else r)) /\
  pendingRationales state' = pendingRationales state /\
  loan state' = loan state /\
  showConfirmation state' = showConfirmation state /\
  (~ In rationaleId (map id (rationales state)) -> state' = state).
Proof.
  cbv zeta. split; [|split; [|split; [reflexivity|split; [reflexivity|split; [reflexivity|]]]]].
  - rewrite mark_reviewed_rationales, map_map. apply map_ext.
    intros r. now destruct (String.eqb (id r) rationaleId).
  - intros k r Hk. rewrite mark_reviewed_rationales, nth_error_map, Hk. reflexivity.
  - intros Habsent. destruct state as [l rs ps e s d]. cbn [loanCockpitReducer].
    f_equal. cbn [rationales] in *. rewrite <- (map_id rs) at 2. apply map_ext_in.
    intros r Hin. destruct (String.eqb_spec (id r) rationaleId) as [Heq|_]; [|reflexivity].
    elim Habsent. rewrite <- Heq. now apply in_map.
Qed.

Lemma mark_reviewed_transition_witness :
  let state := loanCockpitReducer exampleClock initialState LOAD_DEMO_DATA in
  loanCockpitReducer exampleClock state (MARK_REVIEWED "rat-999") = state.
Proof.
  apply (proj2 (proj2 (proj2 (proj2 (proj2
           (mark_reviewed_transition exampleClock
              (loanCockpitReducer exampleClock initialState LOAD_DEMO_DATA)
              "rat-999")))))).
  simpl. intuition discriminate.
Defined.

(** X9. After MARK_REVIEWED at an instant, a summary generated at that
    instant lists no rationale with the reviewed id, and lists the others
    as it would have before. *)
Theorem mark_reviewed_then_summary `{Host} (t : Z) (clock : nat -> Date)
  (state : LoanCockpitState) (rationaleId loanId : string)
  (Hclock : clock 0%nat = dateOfMs t) :
  let state' := loanCockpitReducer clock state (MARK_REVIEWED rationaleId) in
  rationalesNeedingReview (generateReviewSummary (rationales state') loanId (dateOfMs t))
  = rationalesNeedingReview
      (generateReviewSummary
         (filter (fun r => negb (String.eqb (id r) rationaleId)) (rationales state))
         loanId (dateOfMs t)).
Proof.
  cbv zeta. rewrite !needingReview_entries, mark_reviewed_rationales, Hclock.
  f_equal. induction (rationales state) as [|r rs IH]; [reflexivity|].
  cbn [map filter]. destruct (String.eqb (id r) rationaleId); cbn [negb filter].
  - unfold needsReview at 1. cbn [status markRationaleAsReviewed].
    rewrite calculateStatus_same_instant. cbn. exact IH.
  - destruct (needsReview r); now rewrite IH.
Qed.

Lemma mark_reviewed_then_summary_witness :
  let state := loanCockpitReducer exampleClock
                 (exampleState []) (SET_RATIONALES [exampleDue; exampleStale]) in
  let state' := loanCockpitReducer exampleClock state (MARK_REVIEWED "rat-003") in
  map entry_title
      (rationalesNeedingReview
         (generateReviewSummary (H:=utcHost) (rationales state') "CML-2024-00847"
            (dateOfMs 1735387200000)))
  = ["Collateral Valuation Basis"].
Proof.
  cbv zeta.
  rewrite (@mark_reviewed_then_summary utcHost 1735387200000 exampleClock
             (loanCockpitReducer exampleClock (exampleState [])
                (SET_RATIONALES [exampleDue; exampleStale]))
             "rat-003" "CML-2024-00847" eq_refl).
  reflexivity.
Defined.

(** ** The demo data *)

Lemma daysBefore_in_range (t days : Z) :
  - maxTimeValue <= t - days * 86400000 <= maxTimeValue ->
  daysBefore (dateOfMs t) days = dateOfMs (t - days * 86400000).
Proof.
  intros Hrange. unfold daysBefore, newDate, dateOfMs. cbn [getTime num_sub TimeClip].
  replace (days * 24 * 60 * 60 * 1000) with (days * 86400000) by lia.
  apply isValidDate_range in Hrange. unfold isValidDate in Hrange.
  cbn [getTime dateOfMs] in Hrange. now rewrite Hrange.
Qed.

Lemma daysBefore_valid_decompose (now : Date) (days : Z) :
  isValidDate now = true -> isValidDate (daysBefore now days) = true ->
  exists t, now = dateOfMs t
            /\ - maxTimeValue <= t <= maxTimeValue
            /\ - maxTimeValue <= t - days * 86400000 <= maxTimeValue.
Proof.
  destruct now as [[t|]]; [|discriminate]. intros Hnow Hbefore.
  exists t. split; [reflexivity|]. split; [now apply isValidDate_range|].
  unfold daysBefore, newDate, isValidDate in Hbefore.
  cbn [getTime num_sub TimeClip] in Hbefore.
  replace (days * 24 * 60 * 60 * 1000) with (days * 86400000) in Hbefore by lia.
  destruct ((- maxTimeValue <=? t - days * 86400000)
            && (t - days * 86400000 <=? maxTimeValue)) eqn:Hrange;
    cbn [getTime] in Hbefore; [|discriminate].
  apply andb_true_iff in Hrange as [Hlo Hhi]. apply Z.leb_le in Hlo, Hhi. lia.
Qed.

(** X10. Whenever the demo data is loaded, at an instant [t] from which
    120 days back is still a valid date, its three rationales are Fresh,
    Review Due and Stale in this order, last reviewed 15, 45 and 120 days
    before [t], each with one or two contextual signals. *)
Theorem createDemoRationales_statuses (clock : nat -> Date) (t : Z)
  (Hclock : clock 0%nat = dateOfMs t)
  (Hrange : - maxTimeValue + 120 * 86400000 <= t <= maxTimeValue) :
  let demo := createDemoRationales clock in
  map status demo = [Fresh; ReviewDue; Stale] /\
  map lastReviewedAt demo
  = [dateOfMs (t - 15 * 86400000); dateOfMs (t - 45 * 86400000);
     dateOfMs (t - 120 * 86400000)] /\
  map (fun r => getDaysSinceReview (lastReviewedAt r) (clock 0%nat)) demo
  = [Num 15; Num 45; Num 120] /\
  Forall (fun r => (1 <= List.length (contextualSignals r) <= 2)%nat) demo.
Proof.
  cbv zeta. unfold createDemoRationales. rewrite Hclock.
  rewrite !daysBefore_in_range by lia. cbn [map status lastReviewedAt].
  assert (Hdays : forall k, 0 <= k <= 120 ->
                            getDaysSinceReview (dateOfMs (t - k * 86400000)) (dateOfMs t)
                            = Num k).
  { intros k Hk. rewrite getDaysSinceReview_valid;
      replace (t - (t - k * 86400000)) with (k * 86400000) by lia.
    - f_equal. apply Z.div_mul. lia.
    - change (2 ^ 53) with 9007199254740992. lia. }
  rewrite !Hdays by lia.
  rewrite (calculateStatus_of_days _ _ 15 (Hdays 15 ltac:(lia))).
  rewrite (calculateStatus_of_days _ _ 45 (Hdays 45 ltac:(lia))).
  rewrite (calculateStatus_of_days _ _ 120 (Hdays 120 ltac:(lia))).
  repeat split. repeat constructor; simpl; lia.
Qed.

Lemma createDemoRationales_statuses_witness :
  map status (createDemoRationales exampleClock) = [Fresh; ReviewDue; Stale].
Proof.
  apply (createDemoRationales_statuses exampleClock 1735387200000 eq_refl).
  unfold maxTimeValue. lia.
Defined.

(** ** Persistence *)

Lemma mapThrowing_none {A B : Type} (f : A -> option B) (valid : A -> bool) (xs : list A) :
  (forall x, valid x = false -> f x = None) ->
  forallb valid xs = false -> mapThrowing f xs = None.
Proof.
  intros Hf. induction xs as [|x xs IH]; simpl; [discriminate|].
  intros Hall. destruct (valid x) eqn:Hx.
  - simpl in Hall. rewrite (IH Hall). now destruct (f x).
  - now rewrite (Hf x Hx).
Qed.

Lemma serializeSignal_invalid (s : ContextualSignal) :
  signalDatesValid s = false -> serializeSignal s = None.
Proof.
  unfold signalDatesValid, serializeSignal. intros Hinvalid.
  now rewrite (toISOString_invalid _ Hinvalid).
Qed.

Lemma serializeRationale_invalid (r : Rationale) :
  rationaleDatesValid r = false -> serializeRationale r = None.
Proof.
  unfold rationaleDatesValid, serializeRationale. intros Hinvalid.
  destruct (isValidDate (createdAt r)) eqn:Hc;
    [|now rewrite (toISOString_invalid _ Hc)].
  destruct (isValidDate (lastReviewedAt r)) eqn:Hr;
    [|rewrite (toISOString_invalid _ Hr); now destruct (toISOString (createdAt r))].
  simpl in Hinvalid.
  rewrite (mapThrowing_none _ _ _ serializeSignal_invalid Hinvalid).
  destruct (toISOString (createdAt r)); [|reflexivity].
  now destruct (toISOString (lastReviewedAt r)).
Qed.

Lemma serializePending_invalid (p : PendingRationale) :
  isValidDate (extractedAt p) = false -> serializePending p = None.
Proof.
  unfold serializePending. intros Hinvalid. now rewrite (toISOString_invalid _ Hinvalid).
Qed.

Lemma serializeState_invalid (state : LoanCockpitState) :
  stateDatesValid state = false -> serializeState state = None.
Proof.
  unfold stateDatesValid, serializeState. intros Hinvalid.
  destruct (loan state) as [l|].
  - destruct (isValidDate (approvalDate l)) eqn:Hl.
    + simpl in Hinvalid.
      destruct (serializeLoan l); [|reflexivity]. cbn [bind].
      destruct (forallb rationaleDatesValid (rationales state)) eqn:Hr.
      * simpl in Hinvalid.
        rewrite (mapThrowing_none _ (fun p => isValidDate (extractedAt p)) _
                   serializePending_invalid Hinvalid).
        now destruct (mapThrowing serializeRationale (rationales state)).
      * now rewrite (mapThrowing_none _ _ _ serializeRationale_invalid Hr).
    + unfold serializeLoan. now rewrite (toISOString_invalid _ Hl).
  - simpl in Hinvalid. cbn [bind].
    destruct (forallb rationaleDatesValid (rationales state)) eqn:Hr.
    + simpl in Hinvalid.
      rewrite (mapThrowing_none _ (fun p => isValidDate (extractedAt p)) _
                 serializePending_invalid Hinvalid).
      now destruct (mapThrowing serializeRationale (rationales state)).
    + now rewrite (mapThrowing_none _ _ _ serializeRationale_invalid Hr).
Qed.

Lemma serializeState_valid (state : LoanCockpitState) :
  stateDatesValid state = true -> exists snapshot, serializeState state = Some snapshot.
Proof.
  unfold stateDatesValid. intros Hvalid.
  apply andb_true_iff in Hvalid as [Hvalid Hpending].
  apply andb_true_iff in Hvalid as [Hloan Hrationales].
  destruct (mapThrowing_roundtrip _ _ _ serializeRationale_roundtrip _ Hrationales)
    as (rs & Hrs & _).
  destruct (mapThrowing_roundtrip _ _ (fun p => isValidDate (extractedAt p))
              serializePending_roundtrip _ Hpending) as (ps & Hps & _).
  unfold serializeState. destruct (loan state) as [l|].
  - destruct (serializeLoan_roundtrip l Hloan) as (l' & Hl' & _).
    rewrite Hl', Hrs, Hps. cbn [bind]. eauto.
  - rewrite Hrs, Hps. cbn [bind]. eauto.
Qed.

(** X11. [serializeState] throws exactly when some Date of the state is
    an Invalid Date: the loan's approval date, a rationale's [createdAt]
    or [lastReviewedAt], a signal's [updatedAt] or a pending rationale's
    [extractedAt]. *)
Theorem serializeState_throws_iff (state : LoanCockpitState) :
  serializeState state = None <-> stateDatesValid state = false.
Proof.
  split.
  - intros Hnone. destruct (stateDatesValid state) eqn:Hvalid; [|reflexivity].
    destruct (serializeState_valid state Hvalid) as (snapshot & Hsome). congruence.
  - apply serializeState_invalid.
Qed.

Lemma serializeState_throws_iff_witness :
  serializeState
    {| loan := None;
       rationales := [];
       pendingRationales :=
         [ {| pending_id := "rat-a";
              pending_title := "Cash Flow Predictability";
              pending_description := "Contracted revenue covers debt service.";
              extractedAt := InvalidDate;
              sourceText := "Contracted revenue covers debt service." |} ];
       isExtracting := false;
       showConfirmation := true;
       dataSource := DataExtracted |}
  = None.
Proof.
  apply (proj2 (serializeState_throws_iff _)). reflexivity.
Defined.

Lemma forallb_filter {A : Type} (f g : A -> bool) (l : list A) :
  forallb f l = true -> forallb f (filter g l) = true.
Proof.
  rewrite !forallb_forall. intros Hall x Hx. apply filter_In in Hx as [Hx _]. now apply Hall.
Qed.

Lemma demo_dates_valid (clock : nat -> Date) :
  isValidDate (clock 0%nat) = true ->
  isValidDate (daysBefore (clock 0%nat) 120) = true ->
  isValidDate (clock 1%nat) = true ->
  isValidDate (daysBefore (clock 1%nat) 120) = true ->
  forallb rationaleDatesValid (createDemoRationales clock) = true.
Proof.
  intros H0 H0' H1 H1'.
  destruct (daysBefore_valid_decompose _ _ H0 H0') as (t0 & E0 & R0 & R0').
  destruct (daysBefore_valid_decompose _ _ H1 H1') as (t1 & E1 & R1 & R1').
  unfold createDemoRationales. rewrite E0, E1. unfold createContextualSignals.
  unfold maxTimeValue in *.
  rewrite !daysBefore_in_range by (unfold maxTimeValue; lia).
  cbn [forallb revenue collateral management]. unfold rationaleDatesValid.
  cbn [createdAt lastReviewedAt contextualSignals forallb]. unfold signalDatesValid.
  cbn [updatedAt]. rewrite !andb_true_iff. repeat split;
    try reflexivity; apply isValidDate_range; unfold maxTimeValue; lia.
Qed.

(** X12. The reducer keeps the state persistable: from a state whose
    dates are all valid, an action that brings only valid dates leads to
    a state whose dates are all valid, which [serializeState] turns into
    a snapshot. *)
Theorem reducer_keeps_dates_valid (clock : nat -> Date) (state : LoanCockpitState)
  (action : LoanCockpitAction)
  (Hstate : stateDatesValid state = true)
  (Haction : actionDatesValid clock action = true) :
  stateDatesValid (loanCockpitReducer clock state action) = true /\
  exists snapshot, serializeState (loanCockpitReducer clock state action) = Some snapshot.
Proof.
  assert (Hvalid : stateDatesValid (loanCockpitReducer clock state action) = true).
  { unfold stateDatesValid in Hstate |- *.
    apply andb_true_iff in Hstate as [Hstate Hpending].
    apply andb_true_iff in Hstate as [Hloan Hrationales].
    destruct action as [|l ps|l|rs|ps|p|rid| |rid|b|b| |s|];
      cbn [actionDatesValid] in Haction;
      cbn [loanCockpitReducer loan rationales pendingRationales initialState forallb];
      rewrite ?andb_true_r.
    - (* LOAD_DEMO_DATA *)
      rewrite !andb_true_iff in Haction. destruct Haction as [[[H0 H0'] H1] H1'].
      cbn [loadDemoData fst snd]. now rewrite demo_dates_valid.
    - apply andb_true_iff in Haction as [Hl Hps]. now rewrite Hl, Hps.
    - now rewrite Haction, Hrationales, Hpending.
    - now rewrite Hloan, Haction, Hpending.
    - rewrite Hloan, Hrationales, forallb_app, Hpending, Haction. reflexivity.
    - rewrite Hloan, forallb_app, Hrationales, forallb_filter by exact Hpending.
      cbn [forallb]. unfold rationaleDatesValid.
      cbn [createdAt lastReviewedAt contextualSignals forallb]. now rewrite Haction.
    - rewrite Hloan, Hrationales. now rewrite forallb_filter.
    - rewrite Hloan, forallb_app, Hrationales. cbn [andb].
      rewrite forallb_forall. intros r Hr. apply in_map_iff in Hr as (p & <- & _).
      unfold rationaleDatesValid.
      cbn [createdAt lastReviewedAt contextualSignals forallb]. now rewrite Haction.
    - rewrite Hloan, Hpending. rewrite andb_true_r. cbn [andb].
      rewrite forallb_forall in Hrationales |- *. intros r Hr.
      apply in_map_iff in Hr as (r0 & <- & Hr0). specialize (Hrationales r0 Hr0).
      destruct (String.eqb (id r0) rid); [|exact Hrationales].
      unfold rationaleDatesValid in Hrationales |- *.
      cbn [createdAt lastReviewedAt contextualSignals].
      rewrite !andb_true_iff in Hrationales |- *. tauto.
    - now rewrite Hloan, Hrationales, Hpending.
    - now rewrite Hloan, Hrationales, Hpending.
    - reflexivity.
    - exact Haction.
    - reflexivity. }
  split; [exact Hvalid|]. now apply serializeState_valid.
Qed.

Lemma reducer_keeps_dates_valid_witness :
  exists snapshot,
    serializeState (loanCockpitReducer exampleClock initialState LOAD_DEMO_DATA)
    = Some snapshot.
Proof.
  apply (reducer_keeps_dates_valid exampleClock initialState LOAD_DEMO_DATA).
  - reflexivity.
  - reflexivity.
Defined.

(** ** More on the review summary *)

Lemma needsReview_not_fresh (r : Rationale) :
  needsReview r = true <-> status r <> Fresh.
Proof. unfold needsReview. destruct (status r); simpl; split; congruence. Qed.

(** X13. The summary lists exactly the rationales that are not Fresh:
    one entry for each, in the order of [getRationalesNeedingReview],
    with its title, its status and its day count at the current date;
    no entry is Fresh. *)
Theorem generateReviewSummary_entries `{Host} (rationales : list Rationale)
  (loanId : string) (currentDate : Date) :
  let summary := generateReviewSummary rationales loanId currentDate in
  let listed := getRationalesNeedingReview rationales in
  map entry_title (rationalesNeedingReview summary) = map title listed /\
  map entry_status (rationalesNeedingReview summary) = map status listed /\
  map daysSinceReview (rationalesNeedingReview summary)
  = map (fun r => getDaysSinceReview (lastReviewedAt r) currentDate) listed /\
  (forall r, In r listed <-> In r rationales /\ status r <> Fresh) /\
  Forall (fun entry => entry_status entry <> Fresh) (rationalesNeedingReview summary) /\
  List.length (rationalesNeedingReview summary)
  = (List.length rationales
     - List.length (filter (fun r => RationaleStatus_eqb (status r) Fresh) rationales))%nat.
Proof.
  cbv zeta. rewrite needingReview_entries. unfold getRationalesNeedingReview.
  rewrite !map_map. cbn [entry_title entry_status daysSinceReview].
  split; [reflexivity|]. split; [reflexivity|]. split; [reflexivity|].
  split; [|split].
  - intros r. rewrite filter_In, needsReview_not_fresh. reflexivity.
  - apply Forall_map, Forall_forall. intros r Hin. apply filter_In in Hin as [_ Hneeds].
    now apply needsReview_not_fresh.
  - rewrite length_map.
    pose proof (filter_length needsReview rationales) as Hsplit.
    assert (Hsame : filter (fun r => negb (needsReview r)) rationales
                    = filter (fun r => RationaleStatus_eqb (status r) Fresh) rationales).
    { apply filter_ext. intros r. unfold needsReview. now destruct (status r). }
    rewrite Hsame in Hsplit. lia.
Qed.

Lemma generateReviewSummary_entries_witness :
  In exampleStale (getRationalesNeedingReview [exampleDue; exampleStale]).
Proof.
  apply (proj2 (proj1 (proj2 (proj2 (proj2
           (@generateReviewSummary_entries utcHost [exampleDue; exampleStale]
              "CML-2024-00847" exampleNow)))) exampleStale)).
  split; [simpl; tauto|discriminate].
Defined.

Lemma append_empty_r (a : string) : a ++ "" = a.
Proof. induction a as [|x a IH]; simpl; [reflexivity|now rewrite IH]. Qed.

Lemma contains_refl (s : string) : contains s s.
Proof. exists "", "". simpl. now rewrite append_empty_r. Qed.

Lemma contains_append_l (a b part : string) : contains a part -> contains (a ++ b) part.
Proof.
  intros (before & after & ->). exists before, (after ++ b).
  now rewrite !append_assoc.
Qed.

Lemma contains_append_r (a b part : string) : contains b part -> contains (a ++ b) part.
Proof.
  intros (before & after & ->). exists (a ++ before), after.
  now rewrite !append_assoc.
Qed.

Lemma concat_contains (sep line : string) (lines : list string) :
  In line lines -> contains (String.concat sep lines) line.
Proof.
  induction lines as [|x [|y rest] IH]; intros Hin.
  - contradiction.
  - destruct Hin as [->|[]]. apply contains_refl.
  - change (String.concat sep (x :: y :: rest)) with (x ++ sep ++ String.concat sep (y :: rest)).
    destruct Hin as [->|Hin].
    + apply contains_append_l, contains_refl.
    + apply contains_append_r, contains_append_r, IH, Hin.
Qed.

Lemma summary_lines `{Host} (loanId : string) (entries : list ReviewEntry)
  (generatedAt : Date) :
  exists lines,
    generateSummaryText loanId entries generatedAt = String.concat newline lines
    /\ (exists tail, generateSummaryText loanId entries generatedAt
                     = "ANNUAL REVIEW SUMMARY" ++ tail)
    /\ In ("Loan ID: " ++ loanId) lines
    /\ (forall entry, In entry entries ->
          In ("• " ++ entry_title entry) lines
          /\ In ("  Days since last review: " ++ numberToString (daysSinceReview entry))
                lines).
Proof.
  unfold generateSummaryText. destruct entries as [|e l].
  - eexists. split; [reflexivity|]. split; [eexists; reflexivity|].
    split; [simpl; tauto|]. intros entry [].
  - cbn [List.length Nat.eqb]. eexists. split; [reflexivity|].
    split; [eexists; reflexivity|]. split; [simpl; tauto|].
    intros entry Hin.
    assert (Hsorted : In entry (mostStaleFirst (e :: l))).
    { eapply Permutation_in; [apply mostStaleFirst_permutation|exact Hin]. }
    split; apply in_or_app; left; apply in_or_app; right;
      apply in_flat_map; exists entry; (split; [exact Hsorted|]);
      unfold entryLines; simpl; tauto.
Qed.

Lemma contains_suffix (text label part : string) :
  contains text (label ++ part) -> contains text part.
Proof.
  intros (before & after & ->). exists (before ++ label), after.
  now rewrite !append_assoc.
Qed.

(** X14. The summary text is never empty; it contains the loan id, and
    for every listed rationale its title and its day count. *)
Theorem summaryText_contents `{Host} (rationales : list Rationale)
  (loanId : string) (currentDate : Date) :
  let summary := generateReviewSummary rationales loanId currentDate in
  summaryText summary <> "" /\
  contains (summaryText summary) loanId /\
  contains (summaryText summary) ("Loan ID: " ++ loanId) /\
  (forall entry, In entry (rationalesNeedingReview summary) ->
     contains (summaryText summary) (entry_title entry) /\
     contains (summaryText summary) (numberToString (daysSinceReview entry))).
Proof.
  cbv zeta. cbn [summaryText rationalesNeedingReview generateReviewSummary].
  set (entries := map _ (filter needsReview rationales)).
  destruct (summary_lines loanId entries currentDate)
    as (lines & Htext & (tail & Hhead) & Hloan & Hentries).
  split; [rewrite Hhead; discriminate|]. rewrite Htext.
  assert (Hline : contains (String.concat newline lines) ("Loan ID: " ++ loanId))
    by now apply concat_contains.
  split; [exact (contains_suffix _ _ _ Hline)|]. split; [exact Hline|].
  intros entry Hin. destruct (Hentries entry Hin) as [Htitle Hdays]. split.
  - apply (contains_suffix _ "• "). now apply concat_contains.
  - apply (contains_suffix _ "  Days since last review: "). now apply concat_contains.
Qed.

Lemma summaryText_contents_witness :
  contains
    (summaryText (generateReviewSummary (H:=utcHost) [exampleDue; exampleStale]
                    "CML-2024-00847" exampleNow))
    "Collateral Valuation Basis".
Proof.
  apply (proj2 (proj2 (proj2
           (@summaryText_contents utcHost [exampleDue; exampleStale]
              "CML-2024-00847" exampleNow)))
           {| entry_title := "Collateral Valuation Basis";
              entry_status := ReviewDue;
              daysSinceReview := Num 45 |}).
  simpl. now left.
Defined.

Lemma sortInsert_filter_key {A : Type} (key : A -> number) (k : number) (x : A)
  (l : list A) :
  filter (fun y => number_eqb (key y) k)
         (sortInsert (fun a b => num_sub (key b) (key a)) x l)
  = filter (fun y => number_eqb (key y) k) (x :: l).
Proof.
  induction l as [|y l IH]; [reflexivity|]. cbn [sortInsert].
  rewrite (compare_positive key).
  destruct (num_ltb (key x) (key y)) eqn:Hlt; [|reflexivity].
  cbn [filter] in IH |- *. rewrite IH.
  destruct (number_eqb (key x) k) eqn:Hx; [|reflexivity].
  destruct (number_eqb (key y) k) eqn:Hy; [|reflexivity].
  exfalso. destruct (key x) as [a|], (key y) as [b|], k as [c|]; simpl in *;
    try discriminate.
  apply Z.eqb_eq in Hx, Hy. apply Z.ltb_lt in Hlt. lia.
Qed.

(** X15. The sort of the summary is stable: when the day counts are
    numbers, the entries are printed most stale first, and those with one
    and the same day count in the order of the input list. *)
Theorem mostStaleFirst_stable (items : list ReviewEntry)
  (Hnumbers : daysAreNumbers items) :
  MostStaleFirst (mostStaleFirst items) /\
  forall days,
    filter (fun entry => number_eqb (daysSinceReview entry) days) (mostStaleFirst items)
    = filter (fun entry => number_eqb (daysSinceReview entry) days) items.
Proof.
  split; [now apply mostStaleFirst_sorted|]. intros days. clear Hnumbers.
  unfold mostStaleFirst. induction items as [|x items IH]; [reflexivity|].
  cbn [Array_sort]. rewrite (sortInsert_filter_key daysSinceReview).
  cbn [filter]. now rewrite IH.
Qed.

Lemma mostStaleFirst_stable_witness :
  let entry name days :=
    {| entry_title := name; entry_status := ReviewDue; daysSinceReview := Num days |} in
  let items := [entry "first" 45; entry "second" 90; entry "third" 45] in
  map entry_title (mostStaleFirst items) = ["second"; "first"; "third"] /\
  filter (fun entry => number_eqb (daysSinceReview entry) (Num 45)) (mostStaleFirst items)
  = [entry "first" 45; entry "third" 45].
Proof.
  cbv zeta. split; [reflexivity|].
  apply (proj2 (mostStaleFirst_stable
                  [ {| entry_title := "first"; entry_status := ReviewDue;
                       daysSinceReview := Num 45 |};
                    {| entry_title := "second"; entry_status := ReviewDue;
                       daysSinceReview := Num 90 |};
                    {| entry_title := "third"; entry_status := ReviewDue;
                       daysSinceReview := Num 45 |} ]
                  ltac:(repeat constructor; eexists; reflexivity))
           (Num 45)).
Defined.

(** ** A workflow: import, confirm all, summarize *)

(** X16. After an extraction is started and all its pending rationales
    are confirmed at an instant, the cockpit holds one Fresh rationale
    for each, in order and with the same id, title and description, none
    is pending, and a summary generated at that instant lists nothing. *)
Theorem extraction_confirmed `{Host} (clock : nat -> Date) (t : Z)
  (state : LoanCockpitState) (extracted : LoanInfo) (pending : list PendingRationale)
  (Hclock : clock 0%nat = dateOfMs t) :
  let state' := dispatchAll clock state
                  [START_EXTRACTION extracted pending; CONFIRM_ALL_RATIONALES] in
  loan state' = Some extracted /\
  dataSource state' = DataExtracted /\
  pendingRationales state' = [] /\
  showConfirmation state' = false /\
  map id (rationales state') = map pending_id pending /\
  map title (rationales state') = map pending_title pending /\
  map description (rationales state') = map pending_description pending /\
  Forall (fun r => status r = Fresh /\ lastReviewedAt r = dateOfMs t) (rationales state') /\
  rationalesNeedingReview
    (generateReviewSummary (rationales state') (loan_id extracted) (dateOfMs t)) = [].
Proof.
  cbv zeta. unfold dispatchAll.
  cbn [fold_left loanCockpitReducer loan dataSource pendingRationales showConfirmation
       rationales app].
  rewrite Hclock, !map_map. cbn [id title description].
  repeat split.
  - apply Forall_map, Forall_forall. intros p _. cbn [status lastReviewedAt].
    split; [apply calculateStatus_same_instant|reflexivity].
  - rewrite needingReview_entries.
    replace (filter needsReview _) with (@nil Rationale); [reflexivity|].
    symmetry. rewrite calculateStatus_same_instant.
    induction pending as [|p ps IH]; [reflexivity|].
    cbn [map filter]. unfold needsReview at 1. cbn. exact IH.
Qed.

Lemma extraction_confirmed_witness :
  let state' := dispatchAll exampleClock initialState
                  [START_EXTRACTION createDemoLoan [examplePending "rat-a"];
                   CONFIRM_ALL_RATIONALES] in
  map id (rationales state') = ["rat-a"].
Proof.
  apply (@extraction_confirmed utcHost exampleClock 1735387200000 initialState
           createDemoLoan [examplePending "rat-a"] eq_refl).
Defined.

(** ** Strings *)

Lemma length_append (a b : string) :
  String.length (a ++ b) = (String.length a + String.length b)%nat.
Proof. induction a as [|x a IH]; simpl; [reflexivity|now rewrite IH]. Qed.

Lemma substring_all (s : string) : String.substring 0 (String.length s) s = s.
Proof. induction s as [|c s IH]; simpl; [reflexivity|now rewrite IH]. Qed.

Lemma substring_after (a b : string) :
  String.substring (String.length a) (String.length b) (a ++ b) = b.
Proof. induction a as [|x a IH]; simpl; [apply substring_all|exact IH]. Qed.

Lemma substring_split (n : nat) :
  forall s, (n <= String.length s)%nat ->
  s = String.substring 0 n s ++ String.substring n (String.length s - n) s.
Proof.
  induction n as [|n IH]; intros s Hn.
  - simpl. rewrite Nat.sub_0_r, substring_all. now destruct s.
  - destruct s as [|c s]; simpl in *; [lia|]. f_equal. apply IH. lia.
Qed.

Lemma length_substring_0 (n : nat) :
  forall s, String.length (String.substring 0 n s) = Nat.min n (String.length s).
Proof.
  induction n as [|n IH]; intros s.
  - now destruct s.
  - destruct s as [|c s]; simpl; [reflexivity|]. now rewrite IH.
Qed.

Lemma length_substring (n m : nat) :
  forall s, (n + m <= String.length s)%nat -> String.length (String.substring n m s) = m.
Proof.
  induction n as [|n IH]; intros s Hlen.
  - rewrite length_substring_0. simpl in Hlen. lia.
  - destruct s as [|c s]; simpl in *; [lia|]. apply IH. lia.
Qed.

Lemma toLowerCase_append (a b : string) :
  toLowerCase (a ++ b) = toLowerCase a ++ toLowerCase b.
Proof. induction a as [|x a IH]; simpl; [reflexivity|now rewrite IH]. Qed.

Lemma length_toLowerCase (s : string) : String.length (toLowerCase s) = String.length s.
Proof. induction s as [|c s IH]; simpl; [reflexivity|now rewrite IH]. Qed.

Lemma append_same_length (a a' b b' : string) :
  a ++ b = a' ++ b' -> String.length a = String.length a' -> a = a' /\ b = b'.
Proof.
  revert a'. induction a as [|x a IH]; intros [|x' a'] Heq Hlen; simpl in *;
    try discriminate; [now split|].
  injection Heq as -> Heq. injection Hlen as Hlen.
  destruct (IH a' Heq Hlen) as [-> ->]. now split.
Qed.

Lemma endsWith_iff (s suffix : string) :
  endsWith s suffix = true <-> exists before, s = before ++ suffix.
Proof.
  unfold endsWith. rewrite andb_true_iff, Nat.leb_le, String.eqb_eq. split.
  - intros [Hlen Heq]. exists (String.substring 0 (String.length s - String.length suffix) s).
    pose proof (substring_split (String.length s - String.length suffix) s ltac:(lia))
      as Hsplit.
    replace (String.length s - (String.length s - String.length suffix))%nat
      with (String.length suffix) in Hsplit by lia.
    now rewrite Heq in Hsplit.
  - intros (before & ->). rewrite length_append. split; [lia|].
    replace (String.length before + String.length suffix - String.length suffix)%nat
      with (String.length before) by lia.
    apply substring_after.
Qed.

(** X17. [isPdfExtension] accepts exactly the names that end in ".pdf"
    in any mix of upper and lower case, and [validatePdfFile] accepts the
    same names, giving an error message for every other. *)
Theorem isPdfExtension_iff (fileName : string) :
  (isPdfExtension fileName = true
   <-> exists base extension,
         fileName = base ++ extension /\ toLowerCase extension = ".pdf") /\
  isValid (validatePdfFile fileName) = isPdfExtension fileName /\
  (error (validatePdfFile fileName) = None <-> isPdfExtension fileName = true).
Proof.
  split; [|split].
  - unfold isPdfExtension. rewrite endsWith_iff. split.
    + intros (before & Hlower).
      assert (Hlen : (4 <= String.length fileName)%nat).
      { rewrite <- length_toLowerCase, Hlower, length_append. simpl. lia. }
      exists (String.substring 0 (String.length fileName - 4) fileName),
             (String.substring (String.length fileName - 4) 4 fileName).
      split.
      * pose proof (substring_split (String.length fileName - 4) fileName ltac:(lia))
          as Hsplit.
        now replace (String.length fileName - (String.length fileName - 4))%nat with 4%nat
          in Hsplit by lia.
      * pose proof (substring_split (String.length fileName - 4) fileName ltac:(lia))
          as Hsplit.
        replace (String.length fileName - (String.length fileName - 4))%nat with 4%nat
          in Hsplit by lia.
        rewrite Hsplit, toLowerCase_append in Hlower.
        apply append_same_length in Hlower; [apply Hlower|].
        apply (f_equal String.length) in Hlower as Hlen'.
        rewrite !length_append, !length_toLowerCase in Hlen'.
        rewrite length_toLowerCase.
        rewrite (length_substring (String.length fileName - 4) 4) in Hlen' by lia.
        change (String.length ".pdf") with 4%nat in Hlen'. lia.
    + intros (base & extension & -> & Hext). exists (toLowerCase base).
      now rewrite toLowerCase_append, Hext.
  - unfold validatePdfFile, isPdfExtension.
    now destruct (endsWith (toLowerCase fileName) ".pdf").
  - unfold validatePdfFile, isPdfExtension.
    destruct (endsWith (toLowerCase fileName) ".pdf"); simpl; split; congruence.
Qed.

Lemma isPdfExtension_iff_witness : isPdfExtension "Credit-Memo.PDF" = true.
Proof.
  apply (proj2 (proj1 (isPdfExtension_iff "Credit-Memo.PDF"))).
  exists "Credit-Memo", ".PDF". split; reflexivity.
Defined.

Lemma strlen_substring_0 (s : string) (n : Z) :
  0 <= n -> strlen (substring s 0 n) = Z.min n (strlen s).
Proof.
  intros Hn. unfold substring, clampIndex, strlen.
  replace (Z.to_nat (Z.max 0 (Z.min 0 (Z.of_nat (String.length s))))) with 0%nat by lia.
  rewrite Nat.min_0_l, Nat.max_0_l, Nat.sub_0_r, length_substring_0. lia.
Qed.

Lemma substring_0_all (s : string) (n : Z) :
  strlen s <= n -> substring s 0 n = s.
Proof.
  intros Hn. unfold substring, clampIndex, strlen in *.
  replace (Z.to_nat (Z.max 0 (Z.min 0 (Z.of_nat (String.length s))))) with 0%nat by lia.
  rewrite Nat.min_0_l, Nat.max_0_l, Nat.sub_0_r.
  replace (Z.to_nat (Z.max 0 (Z.min n (Z.of_nat (String.length s)))))
    with (String.length s) by lia.
  apply substring_all.
Qed.

Lemma substring_0_prefix (s : string) (n : Z) :
  0 <= n -> exists rest, s = substring s 0 n ++ rest.
Proof.
  intros Hn. unfold substring, clampIndex, strlen.
  replace (Z.to_nat (Z.max 0 (Z.min 0 (Z.of_nat (String.length s))))) with 0%nat by lia.
  rewrite Nat.min_0_l, Nat.max_0_l, Nat.sub_0_r.
  set (k := Z.to_nat (Z.max 0 (Z.min n (Z.of_nat (String.length s))))).
  exists (String.substring k (String.length s - k) s).
  apply substring_split. subst k. lia.
Qed.

Lemma isInherited_iff (key : string) :
  isInherited key = true <-> In key objectPrototypeKeys.
Proof.
  unfold isInherited. rewrite existsb_exists. split.
  - intros (k & Hin & Heq). apply String.eqb_eq in Heq. now subst.
  - intros Hin. exists key. split; [exact Hin|apply String.eqb_refl].
Qed.

(** X18. Confirming a pending rationale that has edits confirms it with
    the first 100 characters of the edited title and the first 250 of the
    edited description, under its own id; without edits it is confirmed
    as it is, unless its id names a member of [Object.prototype], where
    the handler throws; once editing was started for it, it has edits. *)
Theorem handleConfirm_spec (clock : nat -> Date) (state : LoanCockpitState)
  (editingState : EditingState) (rationale : PendingRationale) :
  (editsFor editingState (pending_id rationale) = None ->
   ~ In (pending_id rationale) objectPrototypeKeys ->
   handleConfirm editingState rationale = Some rationale) /\
  (editsFor editingState (pending_id rationale) = None ->
   In (pending_id rationale) objectPrototypeKeys ->
   handleConfirm editingState rationale = None) /\
  (forall edits, editsFor editingState (pending_id rationale) = Some edits ->
     exists payload,
       handleConfirm editingState rationale = Some payload /\
       pending_id payload = pending_id rationale /\
       extractedAt payload = extractedAt rationale /\
       sourceText payload = sourceText rationale /\
       (exists rest, edit_title edits = pending_title payload ++ rest) /\
       strlen (pending_title payload) = Z.min 100 (strlen (edit_title edits)) /\
       (exists rest, edit_description edits = pending_description payload ++ rest) /\
       strlen (pending_description payload) = Z.min 250 (strlen (edit_description edits)) /\
       (strlen (edit_title edits) <= 100 -> pending_title payload = edit_title edits) /\
       (strlen (edit_description edits) <= 250 ->
        pending_description payload = edit_description edits) /\
       exists confirmed,
         rationales (loanCockpitReducer clock state (CONFIRM_RATIONALE payload))
         = (rationales state ++ [confirmed])%list /\
         id confirmed = pending_id rationale /\
         title confirmed = pending_title payload /\
         description confirmed = pending_description payload /\
         strlen (title confirmed) <= 100 /\
         strlen (description confirmed) <= 250) /\
  editsFor (handleStartEdit editingState rationale) (pending_id rationale)
  = Some {| edit_title := pending_title rationale;
            edit_description := pending_description rationale |}.
Proof.
  unfold handleConfirm, getProperty. split; [|split; [|split]].
  - intros -> Hown.
    destruct (isInherited (pending_id rationale)) eqn:Hin; [|reflexivity].
    apply isInherited_iff in Hin. contradiction.
  - intros -> Hin. apply isInherited_iff in Hin. now rewrite Hin.
  - intros edits ->. eexists. split; [reflexivity|].
    cbn [pending_id pending_title pending_description extractedAt sourceText].
    split; [reflexivity|]. split; [reflexivity|]. split; [reflexivity|].
    split; [apply substring_0_prefix; lia|].
    split; [apply strlen_substring_0; lia|].
    split; [apply substring_0_prefix; lia|].
    split; [apply strlen_substring_0; lia|].
    split; [apply substring_0_all|]. split; [apply substring_0_all|].
    eexists. split; [reflexivity|].
    cbn [id title description pending_id pending_title pending_description].
    rewrite !strlen_substring_0 by lia. repeat split; lia.
  - unfold handleStartEdit. cbn [editsFor]. now rewrite String.eqb_refl.
Qed.

Lemma handleConfirm_spec_witness :
  let rationale := examplePending "rat-a" in
  exists payload,
    handleConfirm
      [("rat-a", {| edit_title := "Cash Flow"; edit_description := "Stable" |})]
      rationale = Some payload /\
    pending_title payload = "Cash Flow".
Proof.
  cbv zeta.
  destruct (proj1 (proj2 (proj2
              (handleConfirm_spec exampleClock initialState
                 [("rat-a", {| edit_title := "Cash Flow"; edit_description := "Stable" |})]
                 (examplePending "rat-a"))))
              {| edit_title := "Cash Flow"; edit_description := "Stable" |} eq_refl)
    as (payload & Hpayload & _ & _ & _ & _ & _ & _ & _ & Htitle & _).
  exists payload. split; [exact Hpayload|]. apply Htitle.
  unfold strlen. simpl. lia.
Defined.

(** A pending rationale whose id is [constructor]: confirming it before
    any edit throws; after [handleStartEdit] it is confirmed. *)
Example handleConfirm_constructor :
  handleConfirm [] (examplePending "constructor") = None /\
  handleConfirm (handleStartEdit [] (examplePending "constructor"))
    (examplePending "constructor")
  = Some (examplePending "constructor").
Proof. split; reflexivity. Qed.

(** ** White space *)

Lemma trimStart_empty_iff (s : string) : trimStart s = "" <-> hasInk s = false.
Proof.
  induction s as [|c s IH]; simpl; [tauto|].
  destruct (isWhiteSpace c); simpl; [exact IH|]. split; discriminate.
Qed.

Lemma hasInk_trimStart (s : string) : hasInk (trimStart s) = hasInk s.
Proof.
  induction s as [|c s IH]; simpl; [reflexivity|].
  destruct (isWhiteSpace c) eqn:Hc; simpl; [exact IH|now rewrite Hc].
Qed.

Lemma trimEnd_empty_iff (s : string) : trimEnd s = "" <-> hasInk s = false.
Proof.
  induction s as [|c s IH]; simpl; [tauto|].
  destruct (trimEnd s) as [|x rest] eqn:Hend.
  - destruct (isWhiteSpace c); simpl; [tauto|]. split; discriminate.
  - split; [discriminate|]. intros Hink. apply orb_false_iff in Hink as [_ Hink].
    apply IH in Hink. discriminate.
Qed.

Lemma hasInk_trimEnd (s : string) : hasInk (trimEnd s) = hasInk s.
Proof.
  induction s as [|c s IH]; simpl; [reflexivity|].
  destruct (trimEnd s) as [|x rest] eqn:Hend.
  - assert (Hs : hasInk s = false) by now apply trimEnd_empty_iff.
    rewrite Hs. destruct (isWhiteSpace c) eqn:Hc; simpl; [reflexivity|now rewrite Hc].
  - cbn [hasInk] in IH |- *. now rewrite IH.
Qed.

Lemma trim_empty_iff (s : string) : trim s = "" <-> hasInk s = false.
Proof. unfold trim. now rewrite trimEnd_empty_iff, hasInk_trimStart. Qed.

Lemma hasInk_trim (s : string) : hasInk (trim s) = hasInk s.
Proof. unfold trim. now rewrite hasInk_trimEnd, hasInk_trimStart. Qed.

Lemma trimEnd_idempotent (s : string) : trimEnd (trimEnd s) = trimEnd s.
Proof.
  induction s as [|c s IH]; simpl; [reflexivity|].
  destruct (trimEnd s) as [|x rest] eqn:Hend.
  - destruct (isWhiteSpace c) eqn:Hc; simpl; [reflexivity|now rewrite Hc].
  - cbn [trimEnd]. cbn [trimEnd] in IH. now rewrite IH.
Qed.

Lemma trimStart_of_inked_head (c : ascii) (s : string) :
  isWhiteSpace c = false -> trimStart (String c s) = String c s.
Proof. intros Hc. simpl. now rewrite Hc. Qed.

Lemma trimEnd_keeps_head (c : ascii) (s : string) :
  isWhiteSpace c = false -> exists rest, trimEnd (String c s) = String c rest.
Proof.
  intros Hc. simpl. destruct (trimEnd s); [rewrite Hc|]; eauto.
Qed.

Lemma trimStart_trim (s : string) : trimStart (trim s) = trim s.
Proof.
  unfold trim. destruct (trimStart s) as [|c rest] eqn:Hstart; [reflexivity|].
  assert (Hc : isWhiteSpace c = false).
  { clear -Hstart. induction s as [|x s IH]; simpl in Hstart; [discriminate|].
    destruct (isWhiteSpace x) eqn:Hx; [now apply IH|]. now injection Hstart as <- _. }
  destruct (trimEnd_keeps_head c rest Hc) as (rest' & ->).
  now apply trimStart_of_inked_head.
Qed.

Lemma trim_idempotent (s : string) : trim (trim s) = trim s.
Proof.
  unfold trim at 1. rewrite trimStart_trim. unfold trim. apply trimEnd_idempotent.
Qed.

Lemma strlen_empty_iff (s : string) : strlen s = 0 <-> s = "".
Proof. unfold strlen. destruct s; simpl; split; (discriminate || lia || reflexivity). Qed.

Lemma append_nonempty_r (a b : string) : b <> "" -> a ++ b <> "".
Proof. destruct a; simpl; [tauto|discriminate]. Qed.

Lemma append_nonempty_l (a b : string) : a <> "" -> a ++ b <> "".
Proof. destruct a; simpl; [tauto|discriminate]. Qed.

(** A description cut at 350 characters is not empty when the content
    is longer than that or has ink. *)
Lemma cut_description_nonempty (content : string) :
  (strlen content <= 350 -> hasInk content = true) ->
  trim (substring content 0 350) ++ ellipsisAfter350 content <> "".
Proof.
  intros Hink. unfold ellipsisAfter350.
  destruct (Z.ltb_spec 350 (strlen content)) as [Hlong|Hshort].
  - apply append_nonempty_r. discriminate.
  - rewrite substring_0_all by exact Hshort. apply append_nonempty_l.
    intros Hempty. apply trim_empty_iff in Hempty. rewrite (Hink Hshort) in Hempty.
    discriminate.
Qed.

(** ** Sections *)

Lemma Map_set_keys (m : SectionMap) (key value : string) :
  map fst (Map_set m key value)
  = if existsb (String.eqb key) (map fst m) then map fst m
    else (map fst m ++ [key])%list.
Proof.
  induction m as [|[k v] m IH]; simpl; [reflexivity|].
  destruct (String.eqb_spec k key) as [->|Hne].
  - rewrite String.eqb_refl. reflexivity.
  - simpl. rewrite IH. destruct (String.eqb_spec key k) as [->|_]; [contradiction|].
    simpl. now destruct (existsb (String.eqb key) (map fst m)).
Qed.

Lemma Map_set_values (P : string -> Prop) (m : SectionMap) (key value : string) :
  Forall (fun kv => P (snd kv)) m -> P value ->
  Forall (fun kv => P (snd kv)) (Map_set m key value).
Proof.
  induction 1 as [|[k v] m Hkv Hm IH]; intros Hvalue; simpl.
  - now repeat constructor.
  - destruct (String.eqb k key); constructor; auto.
Qed.

Lemma Map_get_In (m : SectionMap) (key value : string) :
  Map_get m key = Some value -> In (key, value) m.
Proof.
  induction m as [|[k v] m IH]; simpl; [discriminate|].
  destruct (String.eqb_spec k key) as [->|_].
  - intros [= ->]. now left.
  - intros Hget. right. now apply IH.
Qed.

Lemma Map_get_set (m : SectionMap) (key value : string) :
  Map_get (Map_set m key value) key = Some value.
Proof.
  induction m as [|[k v] m IH]; simpl.
  - now rewrite String.eqb_refl.
  - destruct (String.eqb k key) eqn:Hk; simpl; rewrite Hk; [reflexivity|exact IH].
Qed.

Lemma sections_step (text : string) (sections : SectionMap) (sectionDef : SectionDef) :
  let sections' :=
    match regexMatch (wordsRegExp false (name sectionDef)) text with
    | Some (index, matched) =>
        let startIndex := Z.of_nat index + Z.of_nat matched in
        let endIndex := sectionEnd text startIndex (endMarkers sectionDef) in
        let content := trim (substring text startIndex endIndex) in
        let content := trim (stripLeadingColonOrDash (collapseWhiteSpace false content)) in
        if 20 <? strlen content then Map_set sections (name sectionDef) content
        else sections
    | None => sections
    end in
  Forall (fun kv => goodSection (snd kv)) sections ->
  Forall (fun kv => goodSection (snd kv)) sections'
  /\ (map fst sections' = map fst sections
      \/ (~ In (name sectionDef) (map fst sections)
          /\ map fst sections' = (map fst sections ++ [name sectionDef])%list)).
Proof.
  cbv zeta. intros Hgood.
  destruct (regexMatch _ text) as [[index matched]|]; [|split; [exact Hgood|now left]].
  match goal with |- context [20 <? strlen ?c] => set (content := c) end.
  destruct (Z.ltb_spec 20 (strlen content)) as [Hlong|_]; [|split; [exact Hgood|now left]].
  split.
  - apply Map_set_values; [exact Hgood|]. split; [exact Hlong|]. subst content.
    split; [apply trim_idempotent|].
    rewrite hasInk_trim. match goal with |- hasInk ?x = true => destruct (hasInk x) eqn:Hink end;
      [reflexivity|].
    apply trim_empty_iff in Hink. rewrite Hink in Hlong. cbv in Hlong. discriminate.
  - rewrite Map_set_keys.
    destruct (existsb (String.eqb (name sectionDef)) (map fst sections)) eqn:Hex; [now left|].
    right. split; [|reflexivity]. intros Hin.
    assert (existsb (String.eqb (name sectionDef)) (map fst sections) = true); [|congruence].
    apply existsb_exists. exists (name sectionDef). split; [exact Hin|apply String.eqb_refl].
Qed.

Lemma extractSections_prefix (text : string) (defs : list SectionDef) :
  forall sections,
    Forall (fun kv => goodSection (snd kv)) sections ->
    NoDup (map fst sections ++ map name defs)%list ->
    let result :=
      fold_left
        (fun sections sectionDef =>
           match regexMatch (wordsRegExp false (name sectionDef)) text with
           | Some (index, matched) =>
               let startIndex := Z.of_nat index + Z.of_nat matched in
               let endIndex := sectionEnd text startIndex (endMarkers sectionDef) in
               let content := trim (substring text startIndex endIndex) in
               let content :=
                 trim (stripLeadingColonOrDash (collapseWhiteSpace false content)) in
               if 20 <? strlen content then Map_set sections (name sectionDef) content
               else sections
           | None => sections
           end)
        defs sections in
    Forall (fun kv => goodSection (snd kv)) result
    /\ NoDup (map fst result)
    /\ incl (map fst result) (map fst sections ++ map name defs)%list.
Proof.
  induction defs as [|def defs IH]; intros sections Hgood Hnodup; cbv zeta.
  - cbn [fold_left map] in *. rewrite app_nil_r in *. split; [exact Hgood|].
    split; [exact Hnodup|apply incl_refl].
  - cbn [fold_left]. destruct (sections_step text sections def Hgood) as [Hgood' Hkeys].
    cbv zeta in Hgood', Hkeys.
    match goal with |- context [fold_left _ defs ?s] => set (sections' := s) in * end.
    assert (Hnodup' : NoDup (map fst sections' ++ map name defs)%list /\
                      incl (map fst sections' ++ map name defs)%list
                           (map fst sections ++ map name (def :: defs))%list).
    { cbn [map] in *. destruct Hkeys as [->|[_ ->]].
      - split; [eapply NoDup_remove_1; exact Hnodup|].
        intros x Hx. apply in_app_or in Hx as [Hx|Hx]; apply in_or_app;
          [now left|right; now right].
      - rewrite <- app_assoc. cbn [app]. split; [exact Hnodup|apply incl_refl]. }
    destruct Hnodup' as [Hnodup' Hincl].
    destruct (IH sections' Hgood' Hnodup') as (Hres & Hnd & Hin). cbv zeta in Hres, Hnd, Hin.
    split; [exact Hres|]. split; [exact Hnd|].
    eapply incl_tran; [exact Hin|exact Hincl].
Qed.

(** X19. Every section that [extractSections] returns is one of the five
    named sections, under a name that occurs once; its content is longer
    than 20 characters and has no white space at either end. *)
Theorem extractSections_spec (text : string) :
  let sections := extractSections text in
  NoDup (map fst sections) /\
  incl (map fst sections) sectionNames /\
  Forall (fun kv => 20 < strlen (snd kv) /\ trim (snd kv) = snd kv) sections /\
  (forall key content, Map_get sections key = Some content ->
     In key sectionNames /\ 20 < strlen content /\ trim content = content).
Proof.
  cbv zeta.
  destruct (extractSections_prefix text sectionDefs [] (Forall_nil _)) as (Hgood & Hnd & Hin).
  { cbn. repeat constructor; simpl; intuition discriminate. }
  cbv zeta in Hgood, Hnd, Hin. fold (extractSections text) in Hgood, Hnd, Hin.
  split; [exact Hnd|]. split; [exact Hin|]. split.
  - eapply Forall_impl; [|exact Hgood]. intros kv (Hlen & Htrim & _). now split.
  - intros key content Hget. apply Map_get_In in Hget.
    rewrite Forall_forall in Hgood. destruct (Hgood _ Hget) as (Hlen & Htrim & _).
    split; [|now split]. apply Hin. change key with (fst (key, content)). now apply in_map.
Qed.

Lemma extractSections_spec_witness :
  20 < strlen "The borrower has stable revenue and predictable cash flows for years.".
Proof.
  apply (proj2 (proj2 (proj2
           (extractSections_spec
              "Cash Flow Predictability: The borrower has stable revenue and predictable cash flows for years.")))
           "Cash Flow Predictability"
           "The borrower has stable revenue and predictable cash flows for years.").
  reflexivity.
Defined.


(** ** Extracted rationales *)

Section Extracted.

Context `{Host}.

Lemma pushRationale_extracted (now : Date) (rationales : list PendingRationale)
  (title description source : string) :
  extractedSoFar now rationales ->
  title <> "" -> description <> "" -> source <> "" ->
  extractedSoFar now (pushRationale rationales title description now source).
Proof.
  intros [Hall Hids] Ht Hd Hs. unfold pushRationale. split.
  - apply Forall_app. split; [exact Hall|]. repeat constructor; assumption.
  - rewrite map_app, length_app, Nat.add_comm. cbn [List.length Nat.add].
    rewrite seq_S, map_app, Hids. reflexivity.
Qed.

Lemma pushRationale_length (now : Date) (rationales : list PendingRationale)
  (title description source : string) :
  List.length (pushRationale rationales title description now source)
  = S (List.length rationales).
Proof. unfold pushRationale. rewrite length_app. simpl. lia. Qed.

Lemma fold_left_invariant {A B : Type} (P : A -> nat -> Prop) (f : A -> B -> A)
  (l : list B) :
  (forall acc n x, In x l -> P acc n -> P (f acc x) (S n)) ->
  forall init n, P init n -> P (fold_left f l init) (n + List.length l)%nat.
Proof.
  induction l as [|x l IH]; intros Hstep init n Hinit; simpl.
  - now rewrite Nat.add_0_r.
  - rewrite <- Nat.add_succ_comm. apply IH.
    + intros acc m y Hy. apply Hstep. now right.
    + apply Hstep; [now left|exact Hinit].
Qed.

Lemma strlen_nonempty (s : string) : 0 < strlen s -> s <> "".
Proof. intros Hlen ->. cbv in Hlen. discriminate. Qed.

Lemma sectionRationales_extracted (now : Date) (sections : SectionMap) :
  Forall (fun kv => goodSection (snd kv)) sections ->
  extractedSoFar now (sectionRationales now sections)
  /\ (List.length (sectionRationales now sections) <= 4)%nat.
Proof.
  intros Hgood. unfold sectionRationales.
  change 4%nat with (0 + List.length sectionMappings)%nat.
  apply (fold_left_invariant
           (fun acc n => extractedSoFar now acc /\ (List.length acc <= n)%nat)
           _ sectionMappings); [|split; [split; [constructor|reflexivity]|simpl; lia]].
  intros acc n [sectionName title] Hin [Hacc Hlen].
  destruct (Map_get sections sectionName) as [content|] eqn:Hget; [|split; [exact Hacc|lia]].
  destruct (Z.ltb_spec 20 (strlen content)) as [Hlong|_]; [|split; [exact Hacc|lia]].
  apply Map_get_In in Hget. rewrite Forall_forall in Hgood.
  destruct (Hgood _ Hget) as (_ & _ & Hink). cbn [snd] in Hink. split.
  - apply pushRationale_extracted; [exact Hacc| | |].
    + simpl in Hin. destruct Hin as [Heq|[Heq|[Heq|[Heq|[]]]]];
        injection Heq as _ <-; discriminate.
    + apply cut_description_nonempty. now intros _.
    + apply strlen_nonempty. lia.
  - rewrite pushRationale_length. lia.
Qed.

Lemma keywordRationales_extracted (now : Date) (text : string) :
  extractedSoFar now (keywordRationales now text [])
  /\ (List.length (keywordRationales now text []) <= 5)%nat.
Proof.
  unfold keywordRationales.
  change 5%nat with (0 + List.length fallbackPatterns)%nat.
  apply (fold_left_invariant
           (fun acc n => extractedSoFar now acc /\ (List.length acc <= n)%nat)
           _ fallbackPatterns); [|split; [split; [constructor|reflexivity]|simpl; lia]].
  intros acc n [keyword title] Hin [Hacc Hlen].
  destruct (indexOf (toLowerCase text) keyword 0 =? -1); [split; [exact Hacc|lia]|].
  match goal with |- context [30 <? strlen ?c] => set (context := c) end.
  destruct (Z.ltb_spec 30 (strlen context)) as [Hlong|_]; [|split; [exact Hacc|lia]].
  split.
  - apply pushRationale_extracted; [exact Hacc| | |].
    + simpl in Hin. destruct Hin as [Heq|[Heq|[Heq|[Heq|[Heq|[]]]]]];
        injection Heq as _ <-; discriminate.
    + apply append_nonempty_l, strlen_nonempty. rewrite strlen_substring_0 by lia. lia.
    + apply strlen_nonempty. lia.
  - rewrite pushRationale_length. lia.
Qed.

(** X20. Every pending rationale that [mockExtractRationales] emits has
    a title, a description and a source text that are not empty, and is
    stamped with the extraction time; there are at most five, and their
    ids are the first ids generated, in order, hence distinct when the
    first five generated ids are. *)
Theorem mockExtractRationales_wellFormed (now : Date) (text : string) :
  let emitted := mockExtractRationales now text in
  Forall (wellFormedPending now) emitted /\
  (List.length emitted <= 5)%nat /\
  map pending_id emitted = map generatedIds (seq 0 (List.length emitted)) /\
  (NoDup (map generatedIds (seq 0 5)) -> NoDup (map pending_id emitted)).
Proof.
  cbv zeta.
  assert (Hmain : extractedSoFar now (mockExtractRationales now text)
                  /\ (List.length (mockExtractRationales now text) <= 5)%nat).
  { unfold mockExtractRationales.
    destruct (extractSections_prefix text sectionDefs [] (Forall_nil _)) as (Hgood & _ & _).
    { cbn. repeat constructor; simpl; intuition discriminate. }
    cbv zeta in Hgood. fold (extractSections text) in Hgood.
    destruct (sectionRationales_extracted now _ Hgood) as [Hsec Hsec_len].
    destruct (sectionRationales now (extractSections text)) as [|r rs] eqn:Hsections.
    - cbn [List.length Nat.eqb].
      destruct (keywordRationales_extracted now text) as [Hkey Hkey_len].
      destruct (keywordRationales now text []) as [|k ks] eqn:Hkeywords.
      + cbn [List.length Nat.eqb andb].
        destruct (Z.ltb_spec 0 (strlen (trim text))) as [Hink|_];
          [|split; [split; [constructor|reflexivity]|simpl; lia]].
        assert (Htext : hasInk text = true).
        { destruct (hasInk text) eqn:Hno; [reflexivity|].
          apply trim_empty_iff in Hno. rewrite Hno in Hink. cbv in Hink. discriminate. }
        split; [|rewrite pushRationale_length; simpl; lia].
        apply pushRationale_extracted; [split; [constructor|reflexivity]|discriminate| |].
        * apply cut_description_nonempty. intros Hshort.
          destruct (Map_get (extractSections text) "Executive Summary") as [summary|] eqn:Hget.
          -- apply Map_get_In in Hget. rewrite Forall_forall in Hgood.
             destruct (Hgood _ Hget) as (Hlen & _ & Hsum). cbn [snd] in Hlen, Hsum.
             destruct (Z.ltb_spec 0 (strlen summary)); [exact Hsum|lia].
          -- rewrite strlen_substring_0 in Hshort by lia.
             rewrite substring_0_all by lia. exact Htext.
        * apply strlen_nonempty.
          destruct (Map_get (extractSections text) "Executive Summary") as [summary|] eqn:Hget.
          -- destruct (Z.ltb_spec 0 (strlen summary)); [lia|].
             rewrite strlen_substring_0 by lia.
             assert (0 < strlen text); [|lia].
             destruct text; [discriminate Htext|unfold strlen; simpl; lia].
          -- rewrite strlen_substring_0 by lia.
             assert (0 < strlen text); [|lia].
             destruct text; [discriminate Htext|unfold strlen; simpl; lia].
      + cbn [List.length Nat.eqb andb]. split; [exact Hkey|exact Hkey_len].
    - cbn [List.length Nat.eqb andb]. split; [exact Hsec|]. simpl in Hsec_len |- *. lia. }
  destruct Hmain as [[Hall Hids] Hlen].
  split; [exact Hall|]. split; [exact Hlen|]. split; [exact Hids|].
  intros Hdistinct. rewrite Hids.
  replace 5%nat
    with (List.length (mockExtractRationales now text)
          + (5 - List.length (mockExtractRationales now text)))%nat in Hdistinct by lia.
  rewrite seq_app, map_app in Hdistinct. now apply NoDup_app_remove_r in Hdistinct.
Qed.

End Extracted.

Lemma mockExtractRationales_wellFormed_witness :
  NoDup (map pending_id
           (mockExtractRationales (H:=utcHost) exampleNow
              "The collateral valuation supports the loan amount requested. Risk is low overall here, we think.")).
Proof.
  apply (proj2 (proj2 (proj2
           (@mockExtractRationales_wellFormed utcHost exampleNow
              "The collateral valuation supports the loan amount requested. Risk is low overall here, we think.")))).
  repeat constructor; simpl; intuition discriminate.
Defined.

